(** * CCLI: the command-line tokenizer and dispatcher

    A shallow embedding of the core of the CCLI shell emulator
    ([executor.py], [environment.py], the environment-only commands of
    [commands.py] and [CCLIGUI.handle_command] of [gui.py]), with the
    properties of its specification stated over it.

    Modelling conventions.
    - A Python [str] is a [string]; the text handled is ASCII, on which
      [str.lower], [str.strip] and [str.isspace] are the functions below.
    - A Python [dict] is an association list in insertion order
      ([dict_get], [dict_set]), since [alias] and [env] print their
      tables in that order.
    - The output callback is a writer: every function returns the list
      of [(text, tag)] pairs it emitted, oldest first.
    - Python exceptions are explicit: a capability either returns or
      raises an [Exception] with a message; [execute] either returns or
      lets an [IndexError] escape. *)

From Stdlib Require Import String Ascii List Bool Arith Lia ZArith.
From Stdlib Require Import Numbers.DecimalString.
Import ListNotations.

Local Open Scope list_scope.
Local Open Scope string_scope.

(** ** Python string primitives *)

Module Py.

(** Truthiness of a [str]: [if s:]. *)
Definition truthy (s : string) : bool := negb (s =? "").

(** [s + c] for a single character [c]. *)
Definition snoc (s : string) (c : ascii) : string := s ++ String c "".

(** [str.isspace] on one ASCII character: TAB, LF, VT, FF, CR, FS, GS,
    RS, US and the space. *)
Definition isspace (c : ascii) : bool :=
  let n := nat_of_ascii c in
  ((9 <=? n)%nat && (n <=? 13)%nat) || ((28 <=? n)%nat && (n <=? 32)%nat).

Fixpoint lstrip (s : string) : string :=
  match s with
  | "" => ""
  | String c s' => if isspace c then lstrip s' else s
  end.

Fixpoint rstrip (s : string) : string :=
  match s with
  | "" => ""
  | String c s' =>
      let r := rstrip s' in
      if isspace c && (r =? "") then "" else String c r
  end.

(** [s.strip()] *)
Definition strip (s : string) : string := rstrip (lstrip s).

Definition lower_char (c : ascii) : ascii :=
  let n := nat_of_ascii c in
  if (65 <=? n)%nat && (n <=? 90)%nat then ascii_of_nat (n + 32) else c.

(** [s.lower()] *)
Fixpoint lower (s : string) : string :=
  match s with
  | "" => ""
  | String c s' => String (lower_char c) (lower s')
  end.

(** [sep.join(l)] *)
Definition join (sep : string) (l : list string) : string :=
  String.concat sep l.

(** [c in s] for a character [c]. *)
Fixpoint has_char (c : ascii) (s : string) : bool :=
  match s with
  | "" => false
  | String d s' => (d =? c)%char || has_char c s'
  end.

(** [t in s] for strings: [t] occurs in [s] as a contiguous run. *)
Fixpoint contains (t s : string) : bool :=
  String.prefix t s ||
  match s with
  | "" => false
  | String _ s' => contains t s'
  end.

(** [v == s] for a value [v] that is [None] or a [str]. *)
Definition equals (v : option string) (s : string) : bool :=
  match v with
  | Some x => x =? s
  | None => false
  end.

(** [str(n)] for a natural number. *)
Definition str_of_nat (n : nat) : string :=
  NilEmpty.string_of_uint (Nat.to_uint n).

End Py.

(** ** Dictionaries in insertion order *)

Definition dict (V : Type) : Type := list (string * V).

Fixpoint dict_get {V : Type} (k : string) (d : dict V) : option V :=
  match d with
  | [] => None
  | (k', v) :: d' => if k' =? k then Some v else dict_get k d'
  end.

(** [d[k] = v]: an existing key keeps its position, a new key goes last. *)
Fixpoint dict_set {V : Type} (k : string) (v : V) (d : dict V) : dict V :=
  match d with
  | [] => [(k, v)]
  | (k', v') :: d' =>
      if k' =? k then (k', v) :: d' else (k', v') :: dict_set k v d'
  end.

(** [k in d] *)
Definition dict_mem {V : Type} (k : string) (d : dict V) : bool :=
  match dict_get k d with Some _ => true | None => false end.

(** ** The tokenizer ([CommandExecutor.tokenize]) *)

(** The double-quote character, code 34. *)
Definition quote : ascii := "034"%char.
Definition space : ascii := " "%char.

(** The three loop variables of [tokenize]. *)
Record TokenizerState : Type := mkTokenizer
  { tokens : list string;
    current : string;
    in_quotes : bool }.

(** One iteration of [for char in command_line]. *)
Definition tokenize_step (st : TokenizerState) (char : ascii)
  : TokenizerState :=
  if (char =? quote)%char then
    mkTokenizer (tokens st) (current st) (negb (in_quotes st))
  else if (char =? space)%char && negb (in_quotes st) then
    if Py.truthy (current st) then
      mkTokenizer (tokens st ++ [current st])%list "" (in_quotes st)
    else st
  else
    mkTokenizer (tokens st) (Py.snoc (current st) char) (in_quotes st).

Fixpoint tokenize_loop (command_line : string) (st : TokenizerState)
  : TokenizerState :=
  match command_line with
  | "" => st
  | String char rest => tokenize_loop rest (tokenize_step st char)
  end.

(** The code after the loop: the last token, when there is one. *)
Definition tokenize_finish (st : TokenizerState) : list string :=
  if Py.truthy (current st) then (tokens st ++ [current st])%list
  else tokens st.

Definition tokenize (command_line : string) : list string :=
  tokenize_finish (tokenize_loop command_line (mkTokenizer [] "" false)).

(** ** The tokenizer of the specification

    The single pass the specification describes, written as a scanner
    that emits tokens as it goes: [inside] is the quoted-region flag,
    [acc] the accumulator. *)

Definition emit (acc : string) (rest : list string) : list string :=
  if Py.truthy acc then acc :: rest else rest.

Fixpoint reference_scan (inside : bool) (acc : string) (line : string)
  : list string :=
  match line with
  | "" => emit acc []
  | String c line' =>
      if (c =? quote)%char then reference_scan (negb inside) acc line'
      else if (c =? space)%char then
        if inside then reference_scan inside (Py.snoc acc c) line'
        else emit acc (reference_scan false "" line')
      else reference_scan inside (Py.snoc acc c) line'
  end.

Definition reference_tokenize (line : string) : list string :=
  reference_scan false "" line.

(** ** The output sink *)

Inductive StyleTag : Type :=
  tag_output | tag_error | tag_success | tag_info | tag_directory | tag_prompt.

(** One call [self.output(text, tag)]. *)
Definition Emission : Type := (string * StyleTag)%type.

(** The line feed, code 10. *)
Definition nl : string := String "010"%char "".

(** ** The environment ([CCLIEnvironment]) *)

Record CCLIEnvironment : Type := mkEnvironment
  { variables : dict string;
    current_dir : string;
    command_history : list string;
    aliases : dict string }.

Module Environment.

(** [__init__], given the working directory [os.getcwd()] returns. *)
Definition init (cwd : string) : CCLIEnvironment :=
  mkEnvironment [("PATH", "/usr/local/bin:/usr/bin:/bin")] cwd [] [].

Definition set_variable (name value : string) (e : CCLIEnvironment)
  : CCLIEnvironment :=
  mkEnvironment (dict_set name value (variables e)) (current_dir e)
    (command_history e) (aliases e).

Definition get_variable (name : string) (e : CCLIEnvironment) : string :=
  match dict_get name (variables e) with Some v => v | None => "" end.

Definition add_to_history (command : string) (e : CCLIEnvironment)
  : CCLIEnvironment :=
  mkEnvironment (variables e) (current_dir e)
    (command_history e ++ [command])%list (aliases e).

Definition get_last_command (e : CCLIEnvironment) : string :=
  List.last (command_history e) "".

Definition set_alias (name command : string) (e : CCLIEnvironment)
  : CCLIEnvironment :=
  mkEnvironment (variables e) (current_dir e) (command_history e)
    (dict_set name command (aliases e)).

Definition get_alias (name : string) (e : CCLIEnvironment) : option string :=
  dict_get name (aliases e).

Definition set_current_dir (d : string) (e : CCLIEnvironment)
  : CCLIEnvironment :=
  mkEnvironment (variables e) d (command_history e) (aliases e).

End Environment.

(** ** The command capabilities ([Commands]) *)

(** The methods of [Commands] the dispatch table refers to. *)
Inductive Method : Type :=
  | Help | Echo | Cd | Pwd | Ls | Mkdir | Rmdir | Touch | Rm | Rename
  | Read | Write | Head | Tail | Tree | Date | History | Last | Clear
  | Copy | Find | Size | Wc | Grep | Append | Replace | Env | Whoami
  | Uname | Calc | Sleep | Alias | Diff | Cmp.

(** How a call ends: [return value] (with [None] for a bare return) or
    an [Exception] whose [str] is [message]. *)
Inductive Completion : Type :=
  | Return (value : option string)
  | Raise (message : string).

(** What the operating system does for one call of a method that
    touches the file system, the clock or the process: the lines the
    method writes, the directory [os.getcwd()] reports after a
    successful [cd], and the exception that escapes the method, if any. *)
Record HostEffect (W : Type) : Type := mkHostEffect
  { host_world : W;
    host_out : list Emission;
    host_cwd : option string;
    host_fault : option string }.

Arguments mkHostEffect {W} _ _ _ _.
Arguments host_world {W} _.
Arguments host_out {W} _.
Arguments host_cwd {W} _.
Arguments host_fault {W} _.

(** The operating system as an interface: [W] is its state. *)
Class Host (W : Type) : Type :=
  host_call : Method -> list string -> W -> HostEffect W.

(** The state a command runs in. *)
Record State (W : Type) : Type := mkState
  { env : CCLIEnvironment;
    world : W }.

Arguments mkState {W} _ _.
Arguments env {W} _.
Arguments world {W} _.

(** A finished call of a capability. *)
Record Call (W : Type) : Type := mkCall
  { call_state : State W;
    call_out : list Emission;
    call_end : Completion }.

Arguments mkCall {W} _ _ _.
Arguments call_state {W} _.
Arguments call_out {W} _.
Arguments call_end {W} _.

Module Commands.

Definition help_text : string :=
"Available Commands:

FILE OPERATIONS:
  echo [TEXT]              - Display text
  cd [DIRECTORY]           - Change directory
  pwd                      - Print working directory
  ls / dir [PATH]          - List directory contents
  mkdir [DIR]              - Create directory
  rmdir [DIR]              - Remove directory
  touch [FILE]             - Create file
  rm / del [FILE]          - Remove file
  rename/mv [OLD] [NEW]    - Rename/move file
  cp/copy [SRC] [DEST]     - Copy file or directory
  find/search [PATH] [PAT] - Search for files by pattern
  size [PATH]              - Show file/directory size
  
TEXT OPERATIONS:
  read/cat/type [FILE]     - Read file contents
  write [FILE] [TEXT]      - Write to file
  append [FILE] [TEXT]     - Append text to file
  head [FILE] [N]          - Show first N lines (default 10)
  tail [FILE] [N]          - Show last N lines (default 10)
  wc [FILE]                - Word count (lines, words, chars)
  grep [PATTERN] [FILE]    - Search for pattern in file
  replace [FILE] [OLD] [N] - Replace old with new in file
  diff [FILE1] [FILE2]     - Compare two files
  cmp [FILE1] [FILE2]      - Compare files byte by byte
  
SYSTEM:
  tree [PATH]              - Display directory tree
  date                     - Show current date/time
  env [VAR] [VALUE]        - Show/set environment variables
  whoami                   - Show current user
  uname                    - Show system information
  
UTILITIES:
  calc [EXPRESSION]        - Calculate mathematical expression
  sleep [SECONDS]          - Pause for specified seconds
  history                  - Show command history
  last                     - Execute last command
  clear / cls              - Clear screen
  exit                     - Exit CCLI

".

Section Methods.
Context {W : Type} {H : Host W}.

Definition with_env (e : CCLIEnvironment) (st : State W) : State W :=
  mkState e (world st).

Definition help (args : list string) (st : State W) : Call W :=
  mkCall st [(help_text, tag_info)] (Return None).

Definition echo (args : list string) (st : State W) : Call W :=
  mkCall st [(Py.join " " args ++ nl, tag_output)] (Return None).

(** [enumerate(l, 1)] *)
Definition enumerate1 (l : list string) : list (nat * string) :=
  combine (seq 1 (length l)) l.

Definition history (args : list string) (st : State W) : Call W :=
  match command_history (env st) with
  | [] => mkCall st [("No command history available." ++ nl, tag_info)]
            (Return None)
  | _ =>
      mkCall st
        (map (fun ic => (Py.str_of_nat (fst ic) ++ ": " ++ snd ic ++ nl,
                         tag_output))
             (enumerate1 (command_history (env st))))
        (Return None)
  end.

Definition last (args : list string) (st : State W) : Call W :=
  let last_cmd := Environment.get_last_command (env st) in
  if Py.truthy last_cmd && negb (last_cmd =? "last") then
    mkCall st [("Executing: " ++ last_cmd ++ nl, tag_info)]
      (Return (Some last_cmd))
  else
    mkCall st [("No previous command to execute." ++ nl, tag_info)]
      (Return None).

Definition clear (args : list string) (st : State W) : Call W :=
  mkCall st [] (Return (Some "CLEAR")).

Definition env_ (args : list string) (st : State W) : Call W :=
  match args with
  | [] =>
      mkCall st
        (map (fun kv => (fst kv ++ "=" ++ snd kv ++ nl, tag_output))
             (variables (env st)))
        (Return None)
  | [name] =>
      let value := Environment.get_variable name (env st) in
      if Py.truthy value then
        mkCall st [(name ++ "=" ++ value ++ nl, tag_output)] (Return None)
      else
        mkCall st [("Variable not set: " ++ name ++ nl, tag_info)]
          (Return None)
  | name :: rest =>
      mkCall
        (with_env (Environment.set_variable name (Py.join " " rest) (env st))
           st)
        [("Variable set: " ++ name ++ "=" ++ Py.join " " rest ++ nl,
          tag_success)]
        (Return None)
  end.

Definition alias (args : list string) (st : State W) : Call W :=
  match args with
  | [] =>
      match aliases (env st) with
      | [] => mkCall st [("No aliases defined" ++ nl, tag_info)] (Return None)
      | _ =>
          mkCall st
            (map (fun nc => (fst nc ++ "='" ++ snd nc ++ "'" ++ nl,
                             tag_output))
                 (aliases (env st)))
            (Return None)
      end
  | [name] =>
      match Environment.get_alias name (env st) with
      | Some command =>
          if Py.truthy command then
            mkCall st [(name ++ "='" ++ command ++ "'" ++ nl, tag_output)]
              (Return None)
          else
            mkCall st [("Alias not found: " ++ name ++ nl, tag_info)]
              (Return None)
      | None =>
          mkCall st [("Alias not found: " ++ name ++ nl, tag_info)]
            (Return None)
      end
  | name :: rest =>
      let command := Py.join " " rest in
      mkCall (with_env (Environment.set_alias name command (env st)) st)
        [("Alias created: " ++ name ++ "='" ++ command ++ "'" ++ nl,
          tag_success)]
        (Return None)
  end.

(** Every other method: its effect is the operating system's. Only
    [cd] writes to the environment ([current_dir]), and none of them
    returns a value. *)
Definition on_host (m : Method) (args : list string) (st : State W)
  : Call W :=
  let r := host_call m args (world st) in
  let e :=
    match m, host_cwd r with
    | Cd, Some d => Environment.set_current_dir d (env st)
    | _, _ => env st
    end in
  mkCall (mkState e (host_world r)) (host_out r)
    (match host_fault r with
     | Some message => Raise message
     | None => Return None
     end).

(** [getattr(self.commands, m)(args)] *)
Definition call (m : Method) (args : list string) (st : State W) : Call W :=
  match m with
  | Help => help args st
  | Echo => echo args st
  | History => history args st
  | Last => last args st
  | Clear => clear args st
  | Env => env_ args st
  | Alias => alias args st
  | _ => on_host m args st
  end.

End Methods.

End Commands.

(** ** The dispatcher ([CommandExecutor]) *)

(** The dispatch table of [execute], in the order it is written. *)
Definition command_map : dict Method :=
  [ ("help", Help); ("echo", Echo); ("cd", Cd); ("pwd", Pwd); ("ls", Ls);
    ("dir", Ls); ("mkdir", Mkdir); ("rmdir", Rmdir); ("touch", Touch);
    ("rm", Rm); ("del", Rm); ("rename", Rename); ("mv", Rename);
    ("read", Read); ("cat", Read); ("type", Read); ("write", Write);
    ("head", Head); ("tail", Tail); ("tree", Tree); ("date", Date);
    ("history", History); ("last", Last); ("clear", Clear); ("cls", Clear);
    ("cp", Copy); ("copy", Copy); ("find", Find); ("search", Find);
    ("size", Size); ("wc", Wc); ("grep", Grep); ("append", Append);
    ("replace", Replace); ("env", Env); ("whoami", Whoami);
    ("uname", Uname); ("calc", Calc); ("sleep", Sleep); ("alias", Alias);
    ("diff", Diff); ("cmp", Cmp) ].

(** How [execute] ends: it returns a value, or the [IndexError] of
    [tokens[0]] on an empty list leaves it. *)
Inductive Exit : Type :=
  | Returned (result : option string)
  | IndexError.

Record Outcome (W : Type) : Type := mkOutcome
  { after : State W;
    shown : list Emission;
    exit : Exit }.

Arguments mkOutcome {W} _ _ _.
Arguments after {W} _.
Arguments shown {W} _.
Arguments exit {W} _.

(** What the first half of [execute] hands to the second: the alias
    check either leaves [cmd] and [args] as computed from the line, or
    replaces the token list by the tokens of the rebuilt line. *)
Inductive Resolution : Type :=
  | Unaliased (cmd : string) (args : list string)
  | Aliased (tokens : list string).

(** From [cmd = tokens[0].lower()] to the end of the alias check, before
    the new [tokens] is indexed. *)
Definition resolve (aliases : dict string) (head : string)
                   (rest : list string) : Resolution :=
  let cmd := Py.lower head in
  let args := rest in
  match dict_get cmd aliases with
  | Some alias_cmd =>
      let command_line := alias_cmd ++ " " ++ Py.join " " args in
      Aliased (tokenize command_line)
  | None => Unaliased cmd args
  end.

(** The two guards of [execute], then [resolve]: [None] when [execute]
    returns at a guard. *)
Definition parse (aliases : dict string) (command_line : string)
  : option Resolution :=
  if negb (Py.truthy (Py.strip command_line)) then None
  else
    match tokenize command_line with
    | [] => None
    | head :: rest => Some (resolve aliases head rest)
    end.

Definition unknown_command (cmd : string) : string :=
  "Unknown command: " ++ cmd ++ ". Type 'help' for available commands." ++ nl.

Definition error_line (message : string) : string :=
  "Error: " ++ message ++ nl.

Section Executor.
Context {W : Type} {H : Host W}.

(** From the dispatch table to the end of [execute]. *)
Definition dispatch (cmd : string) (args : list string) (st : State W)
  : Outcome W :=
  match dict_get cmd command_map with
  | Some m =>
      let c := Commands.call m args st in
      match call_end c with
      | Return result => mkOutcome (call_state c) (call_out c) (Returned result)
      | Raise message =>
          mkOutcome (call_state c)
            (call_out c ++ [(error_line message, tag_error)])%list
            (Returned None)
      end
  | None => mkOutcome st [(unknown_command cmd, tag_error)] (Returned None)
  end.

Definition execute (command_line : string) (st : State W) : Outcome W :=
  match parse (aliases (env st)) command_line with
  | None => mkOutcome st [] (Returned None)
  | Some (Unaliased cmd args) => dispatch cmd args st
  | Some (Aliased []) => mkOutcome st [] IndexError
  | Some (Aliased (head :: args)) => dispatch (Py.lower head) args st
  end.

End Executor.

(** ** The input handler of the window ([CCLIGUI.handle_command]) *)

Definition welcome : string :=
"Welcome to CCLI - Custom Command Line Interface

Type 'help' for available commands or 'exit' to quit.

".

Record CCLIGUI (W : Type) : Type := mkGUI
  { session : State W;
    output_text : list Emission;
    history_index : Z }.

Arguments mkGUI {W} _ _ _.
Arguments session {W} _.
Arguments output_text {W} _.
Arguments history_index {W} _.

(** How one call of the handler ends: it returns, it destroys the
    window, or the [IndexError] of [execute] leaves it. *)
Inductive Handled : Type := Done | Destroyed | Failed.

Section Window.
Context {W : Type} {H : Host W}.

(** [__init__], after [display_welcome]. *)
Definition gui_init (cwd : string) (w : W) : CCLIGUI W :=
  mkGUI (mkState (Environment.init cwd) w) [(welcome, tag_info)] (-1)%Z.

(** [output_text.delete(1.0, END)] followed by [display_welcome()]. *)
Definition cleared (g : CCLIGUI W) : CCLIGUI W :=
  mkGUI (session g) [(welcome, tag_info)] (history_index g).

(** The end of [handle_command], from [add_to_history] on: [command] is
    the line to run, [st] the state and [text] the window's content. *)
Definition add_and_execute (command : string) (st : State W)
                           (text : list Emission) : CCLIGUI W * Handled :=
  let st := Commands.with_env
              (Environment.add_to_history command (env st)) st in
  let index := Z.of_nat (length (command_history (env st))) in
  let o := execute command st in
  let text := (text ++ shown o)%list in
  match exit o with
  | Returned result =>
      if Py.equals result "CLEAR" then
        (cleared (mkGUI (after o) text index), Done)
      else (mkGUI (after o) text index, Done)
  | IndexError => (mkGUI (after o) text index, Failed)
  end.

(** [handle_command], [entry] being the text of the input field. *)
Definition handle_command (entry : string) (g : CCLIGUI W)
  : CCLIGUI W * Handled :=
  let command := Py.strip entry in
  if negb (Py.truthy command) then (g, Done)
  else
    let text := (output_text g ++
                 [("CCLI> ", tag_prompt);
                  ((command ++ nl)%string, tag_output)])%list in
    if Py.lower command =? "exit" then
      (mkGUI (session g) text (history_index g), Destroyed)
    else if (Py.lower command =? "clear") || (Py.lower command =? "cls") then
      (cleared g, Done)
    else if Py.lower command =? "last" then
      let c := Commands.last [] (session g) in
      let command :=
        match call_end c with
        | Return (Some last_cmd) =>
            if Py.truthy last_cmd then last_cmd else command
        | _ => command
        end in
      add_and_execute command (call_state c) (text ++ call_out c)%list
    else add_and_execute command (session g) text.

(** The event loop on a sequence of submitted entries: it goes on after
    a handler that failed (the toolkit reports the exception) and ends
    when the window is destroyed. *)
Fixpoint submit (entries : list string) (g : CCLIGUI W) : CCLIGUI W :=
  match entries with
  | [] => g
  | entry :: entries' =>
      match handle_command entry g with
      | (g', Destroyed) => g'
      | (g', _) => submit entries' g'
      end
  end.

End Window.

(** ** History navigation ([CCLIGUI.history_up], [CCLIGUI.history_down]) *)

(** [l[i]] for a Python list: a negative index counts from the end, and
    [None] stands for the [IndexError] of an index out of range. *)
Definition list_item {A : Type} (l : list A) (i : Z) : option A :=
  let n := Z.of_nat (length l) in
  if (i <? - n)%Z || (n <=? i)%Z then None
  else if (i <? 0)%Z then nth_error l (Z.to_nat (n + i))
  else nth_error l (Z.to_nat i).

(** The window and the text of its input field after an arrow key;
    [raised] tells that the [IndexError] of the history lookup left the
    handler (the field is then already emptied). *)
Record Navigated (W : Type) : Type := mkNavigated
  { window : CCLIGUI W;
    input_entry : string;
    raised : bool }.

Arguments mkNavigated {W} _ _ _.
Arguments window {W} _.
Arguments input_entry {W} _.
Arguments raised {W} _.

(** What the user does: type a line and press Return, or press an
    arrow key. *)
Inductive Event : Type :=
  | Submit (entry : string)
  | Up
  | Down.

Section Navigation.
Context {W : Type} {H : Host W}.

(** [history_up], [entry] being the text of the input field. *)
Definition history_up (g : CCLIGUI W) (entry : string) : Navigated W :=
  if (0 <? history_index g)%Z then
    let g' := mkGUI (session g) (output_text g) (history_index g - 1)%Z in
    match list_item (command_history (env (session g))) (history_index g')
    with
    | Some command => mkNavigated g' command false
    | None => mkNavigated g' "" true
    end
  else mkNavigated g entry false.

(** [history_down] *)
Definition history_down (g : CCLIGUI W) (entry : string) : Navigated W :=
  let n := Z.of_nat (length (command_history (env (session g)))) in
  if (history_index g <? n - 1)%Z then
    let g' := mkGUI (session g) (output_text g) (history_index g + 1)%Z in
    match list_item (command_history (env (session g))) (history_index g')
    with
    | Some command => mkNavigated g' command false
    | None => mkNavigated g' "" true
    end
  else mkNavigated (mkGUI (session g) (output_text g) n) "" false.

(** One event: Return runs [handle_command] on the text typed and
    leaves the field empty; [None] when the window is destroyed. *)
Definition react (e : Event) (g : CCLIGUI W) (entry : string)
  : option (CCLIGUI W * string) :=
  match e with
  | Submit typed =>
      match handle_command typed g with
      | (_, Destroyed) => None
      | (g', _) => Some (g', "")
      end
  | Up => let r := history_up g entry in Some (window r, input_entry r)
  | Down => let r := history_down g entry in Some (window r, input_entry r)
  end.

(** The window and its input field after a sequence of events, as far
    as the window lives. *)
Fixpoint play (events : list Event) (g : CCLIGUI W) (entry : string)
  : CCLIGUI W * string :=
  match events with
  | [] => (g, entry)
  | e :: events' =>
      match react e g entry with
      | Some (g', entry') => play events' g' entry'
      | None => (g, entry)
      end
  end.

End Navigation.

(** ** The text of the file commands

    What [cmp], [diff], [head] and [tail] of [Commands] write once
    their files are open and read, and the path [cd] changes to. *)

(** [l[start:]] for a Python list. *)
Definition slice_from {A : Type} (l : list A) (start : Z) : list A :=
  let n := Z.of_nat (length l) in
  let first :=
    if (start <? 0)%Z then Z.max 0 (start + n) else Z.min start n in
  skipn (Z.to_nat first) l.

Fixpoint lstrip_char (c : ascii) (s : string) : string :=
  match s with
  | "" => ""
  | String d s' => if (d =? c)%char then lstrip_char c s' else s
  end.

Fixpoint rstrip_char (c : ascii) (s : string) : string :=
  match s with
  | "" => ""
  | String d s' =>
      let r := rstrip_char c s' in
      if (d =? c)%char && (r =? "") then "" else String d r
  end.

(** [s.strip(c)] for a single character [c]. *)
Definition strip_char (c : ascii) (s : string) : string :=
  rstrip_char c (lstrip_char c s).

Module FileCommands.

(** The [while] loop of [cmp] and the test after it: [bytes1] and
    [bytes2] are what is left to read of the two files, [pos] the
    position of their first bytes. *)
Fixpoint cmp_loop (bytes1 bytes2 : string) (pos : nat) : Emission :=
  match bytes1, bytes2 with
  | String byte1 rest1, String byte2 rest2 =>
      if (byte1 =? byte2)%char then cmp_loop rest1 rest2 (S pos)
      else ("Files differ at byte " ++ Py.str_of_nat pos ++ nl, tag_error)
  | "", "" => ("Files are identical" ++ nl, tag_success)
  | _, _ => ("Files have different lengths" ++ nl, tag_error)
  end.

(** [cmp] on two files that were opened: the loop starts at byte 1. *)
Definition cmp_files (bytes1 bytes2 : string) : Emission :=
  cmp_loop bytes1 bytes2 1.

(** One round of the [for] loop of [diff]: what is written for the
    index [i]; a round that finds a difference writes something. *)
Definition diff_at (lines1 lines2 : list string) (i : nat)
  : list Emission :=
  let line1 := option_map Py.rstrip (nth_error lines1 i) in
  let line2 := option_map Py.rstrip (nth_error lines2 i) in
  let number := Py.str_of_nat (i + 1) in
  match line1, line2 with
  | None, None => []
  | None, Some l2 => [(number ++ "a: + " ++ l2 ++ nl, tag_success)]
  | Some l1, None => [(number ++ "d: - " ++ l1 ++ nl, tag_error)]
  | Some l1, Some l2 =>
      if l1 =? l2 then []
      else [(number ++ "c: - " ++ l1 ++ nl, tag_error);
            (number ++ "c: + " ++ l2 ++ nl, tag_success)]
  end.

(** [diff] on the lines [readlines()] gave for the two files. *)
Definition diff_lines (lines1 lines2 : list string) : list Emission :=
  let max_lines := Nat.max (length lines1) (length lines2) in
  let rounds := map (diff_at lines1 lines2) (seq 0 max_lines) in
  let differences :=
    filter (fun round => negb (Nat.eqb (length round) 0)) rounds in
  let summary :=
    match differences with
    | [] => ("Files are identical" ++ nl, tag_info)
    | _ => (nl ++ Py.str_of_nat (length differences) ++
            " difference(s) found" ++ nl, tag_info)
    end in
  (List.concat rounds ++ [summary])%list.

(** The loop of [head]: [lines] is the count, [file_lines] the lines
    of the file. *)
Definition head_lines (lines : Z) (file_lines : list string)
  : list Emission :=
  map (fun line => (line, tag_output)) (firstn (Z.to_nat lines) file_lines).

(** The loop of [tail] over [all_lines[-lines:]]. *)
Definition tail_lines (lines : Z) (all_lines : list string)
  : list Emission :=
  map (fun line => (line, tag_output)) (slice_from all_lines (- lines)).

(** The path [cd] changes to: the arguments joined by spaces, without
    the double quotes at its two ends. *)
Definition cd_path (args : list string) : string :=
  strip_char quote (Py.join " " args).

End FileCommands.

(** ** Two operating systems to run examples on *)

(** One on which every call succeeds and writes nothing. *)
#[export] Instance quiet_host : Host unit :=
  fun _ _ w => mkHostEffect w [] None None.

(** One on which a path never exists: [tree] prints the absolute path
    and then [os.listdir] raises [FileNotFoundError]. *)
Inductive Bare : Type := bare.

#[export] Instance bare_host : Host Bare :=
  fun m args w =>
    match m, args with
    | Tree, path :: _ =>
        mkHostEffect w [("/" ++ path ++ nl, tag_output)] None
          (Some ("[Errno 2] No such file or directory: '" ++ path ++ "'"))
    | _, _ => mkHostEffect w [] None None
    end.

(** A fresh session on the quiet operating system. *)
Definition fresh : State unit := mkState (Environment.init "/") tt.

(** A fresh session on the operating system without paths. *)
Definition stranded : State Bare := mkState (Environment.init "/") bare.

(** [s] between double quotes. *)
Definition quoted (s : string) : string :=
  String quote (s ++ String quote "").

(** ** Predicates of the statements *)

(** A token as the specification wants it: not empty, no double quote. *)
Definition clean (t : string) : Prop :=
  t <> "" /\ Py.has_char quote t = false.

(** Every character of [s] satisfies [p]. *)
Fixpoint all_chars (p : ascii -> bool) (s : string) : bool :=
  match s with
  | "" => true
  | String c s' => p c && all_chars p s'
  end.

(** [s] is made of double quotes and of spaces that all stand outside a
    quoted region, [inside] telling whether [s] starts in one. *)
Fixpoint only_delimiters (inside : bool) (s : string) : bool :=
  match s with
  | "" => true
  | String c s' =>
      if (c =? quote)%char then only_delimiters (negb inside) s'
      else (c =? space)%char && negb inside && only_delimiters inside s'
  end.

(** [execute] takes the branch of the alias check on this line. *)
Definition alias_branch_taken (aliases : dict string) (command_line : string)
  : bool :=
  match parse aliases command_line with
  | Some (Aliased _) => true
  | _ => false
  end.

(** The command name and the arguments [execute] takes to the dispatch
    table, when it gets there. *)
Definition resolved_command (aliases : dict string) (command_line : string)
  : option (string * list string) :=
  match parse aliases command_line with
  | Some (Unaliased cmd args) => Some (cmd, args)
  | Some (Aliased (head :: args)) => Some (Py.lower head, args)
  | _ => None
  end.

(** What a submission adds to the history, from the text typed and the
    history before it alone: nothing for a blank entry, [exit], [clear]
    and [cls]; for [last], the previous entry when there is one other
    than [last]; otherwise the entry without its surrounding blanks. *)
Definition recorded (history : list string) (entry : string)
  : list string :=
  let typed := Py.strip entry in
  let previous := List.last history "" in
  if negb (Py.truthy typed) then []
  else if Py.lower typed =? "exit" then []
  else if (Py.lower typed =? "clear") || (Py.lower typed =? "cls") then []
  else if (Py.lower typed =? "last") && Py.truthy previous
          && negb (previous =? "last") then [previous]
  else [typed].

(** The history after a sequence of submissions; [exit] ends it. *)
Fixpoint journal (history : list string) (entries : list string)
  : list string :=
  match entries with
  | [] => history
  | entry :: entries' =>
      if Py.truthy (Py.strip entry) && (Py.lower (Py.strip entry) =? "exit")
      then history
      else journal (history ++ recorded history entry)%list entries'
  end.


(** No expansion of the alias table contains a double quote. *)
Definition unquoted (aliases : dict string) : Prop :=
  Forall (fun kv => Py.has_char quote (snd kv) = false) aliases.

(** The states of a session: a fresh one, and those the window gets by
    recording a line and by executing one. *)
Inductive reachable {W : Type} {H : Host W} : State W -> Prop :=
  | reach_init (cwd : string) (w : W) :
      reachable (mkState (Environment.init cwd) w)
  | reach_record (command : string) (st : State W) :
      reachable st ->
      reachable (Commands.with_env
                   (Environment.add_to_history command (env st)) st)
  | reach_execute (line : string) (st : State W) :
      reachable st -> reachable (after (execute line st)).

(** The history cursor of the window is [-1] (a window that has run
    nothing) or a position of the history, or one past its end. *)
Definition cursor_in_range {W : Type} (g : CCLIGUI W) : Prop :=
  (-1 <= history_index g <=
   Z.of_nat (length (command_history (env (session g)))))%Z.

(** The method [execute] calls for a line, when it calls one. *)
Definition resolved_method (aliases : dict string) (command_line : string)
  : option Method :=
  match resolved_command aliases command_line with
  | Some (cmd, _) => dict_get cmd command_map
  | None => None
  end.


(** A line the window can store in the history: not empty, and not
    one of the words the window handles itself. *)
Definition storable (e : string) : Prop :=
  Py.truthy e = true /\
  (Py.lower e =? "exit") = false /\
  (Py.lower e =? "clear") || (Py.lower e =? "cls") = false.

(** * Properties *)

#[local] Arguments Ascii.eqb : simpl never.

(** Case analysis on every [match] and [if] of the goal. *)
Ltac split_matches :=
  repeat match goal with
         | |- context [match ?x with _ => _ end] => destruct x eqn:?
         end.

(** ** Strings *)

Lemma truthy_spec (s : string) : Py.truthy s = true <-> s <> "".
Proof.
  unfold Py.truthy. destruct (String.eqb_spec s ""); simpl; split;
    congruence.
Qed.

Lemma truthy_false (s : string) : Py.truthy s = false -> s = "".
Proof.
  unfold Py.truthy. destruct (String.eqb_spec s EmptyString); simpl;
    congruence.
Qed.

Lemma truthy_snoc (s : string) (c : ascii) : Py.truthy (Py.snoc s c) = true.
Proof. destruct s; reflexivity. Qed.

Lemma has_char_app (c : ascii) (s t : string) :
  Py.has_char c (s ++ t) = Py.has_char c s || Py.has_char c t.
Proof.
  induction s as [|d s IH]; simpl; [reflexivity|].
  rewrite IH. apply orb_assoc.
Qed.

Lemma has_char_snoc (c d : ascii) (s : string) :
  Py.has_char c (Py.snoc s d) = Py.has_char c s || (d =? c)%char.
Proof.
  unfold Py.snoc. rewrite has_char_app. simpl. now rewrite orb_false_r.
Qed.

Lemma append_empty_r (s : string) : s ++ "" = s.
Proof. induction s as [|c s IH]; simpl; [reflexivity | now rewrite IH]. Qed.

Lemma append_assoc (s t u : string) : (s ++ t) ++ u = s ++ (t ++ u).
Proof. induction s as [|c s IH]; simpl; [reflexivity | now rewrite IH]. Qed.

Lemma snoc_append (acc : string) (c : ascii) (s : string) :
  Py.snoc acc c ++ s = acc ++ String c s.
Proof. unfold Py.snoc. now rewrite append_assoc. Qed.

(** ** The tokenizer *)

Lemma emit_app (acc : string) (rest : list string) :
  emit acc rest = (emit acc [] ++ rest)%list.
Proof. unfold emit. now destruct (Py.truthy acc). Qed.

(** The loop of [tokenize], started in any state, appends to its token
    list what the scanner of the specification emits from that state. *)
Lemma tokenize_loop_scan (line : string) : forall st : TokenizerState,
  tokenize_finish (tokenize_loop line st) =
  (tokens st ++ reference_scan (in_quotes st) (current st) line)%list.
Proof.
  induction line as [|c line IH]; intros [toks cur inq]; simpl.
  - unfold tokenize_finish, emit; simpl.
    destruct (Py.truthy cur); [reflexivity | now rewrite app_nil_r].
  - rewrite IH. unfold tokenize_step; simpl.
    destruct (c =? quote)%char; simpl; [reflexivity|].
    destruct (c =? space)%char, inq; simpl; try reflexivity.
    unfold emit. destruct (Py.truthy cur) eqn:Hcur; simpl.
    + now rewrite <- app_assoc.
    + apply truthy_false in Hcur. now subst cur.
Qed.

Lemma tokenize_scan (line : string) :
  tokenize line = reference_scan false "" line.
Proof. unfold tokenize. now rewrite tokenize_loop_scan. Qed.

(** C2. [tokenize] is the single-pass algorithm of the specification:
    on every input it returns what the reference scanner returns (a
    flag toggled by each double quote, a space outside quotes ending the
    current token, quotes never emitted, every other character
    accumulated, a non-empty accumulator emitted at the end); and the
    line made of [echo], the quoted [a b] and [c] gives the tokens
    [echo], [a b] and [c]. *)
Theorem tokenize_is_reference :
  (forall line : string, tokenize line = reference_tokenize line) /\
  tokenize ("echo " ++ quoted "a b" ++ " c") = ["echo"; "a b"; "c"].
Proof.
  split; [|reflexivity].
  intros line. unfold reference_tokenize. apply tokenize_scan.
Qed.

Lemma emit_clean (acc : string) (rest : list string) :
  Py.has_char quote acc = false -> Forall clean rest ->
  Forall clean (emit acc rest).
Proof.
  intros Hq Hrest. unfold emit.
  destruct (Py.truthy acc) eqn:Ht; [|assumption].
  constructor; [|assumption]. split; [now apply truthy_spec | assumption].
Qed.

Lemma reference_scan_clean (line : string) : forall inside acc,
  Py.has_char quote acc = false ->
  Forall clean (reference_scan inside acc line).
Proof.
  induction line as [|c line IH]; intros inside acc Hacc; simpl.
  - now apply emit_clean.
  - destruct (c =? quote)%char eqn:Hc; [now apply IH|].
    assert (Hsnoc : Py.has_char quote (Py.snoc acc c) = false)
      by (rewrite has_char_snoc, Hacc, Hc; reflexivity).
    destruct (c =? space)%char; [|now apply IH].
    destruct inside; [now apply IH|].
    apply emit_clean; [assumption | now apply IH].
Qed.

(** C8. For every input, no token of [tokenize] is the empty string and
    no token contains a double-quote character. *)
Theorem tokenize_tokens_clean (s : string) :
  Forall (fun t => t <> "" /\ Py.has_char quote t = false) (tokenize s).
Proof.
  rewrite tokenize_scan. now apply reference_scan_clean.
Qed.

(** ** Blank input *)

Lemma lstrip_all_space (s : string) :
  all_chars Py.isspace s = true -> Py.lstrip s = "".
Proof.
  induction s as [|c s IH]; simpl; [reflexivity|].
  intros Hs. apply andb_prop in Hs as [Hc Hs]. rewrite Hc. now apply IH.
Qed.

Lemma strip_all_space (s : string) :
  all_chars Py.isspace s = true -> Py.strip s = "".
Proof. intros Hs. unfold Py.strip. now rewrite lstrip_all_space. Qed.

Lemma only_delimiters_scan (s : string) : forall inside,
  only_delimiters inside s = true -> reference_scan inside "" s = [].
Proof.
  induction s as [|c s IH]; intros inside; simpl; [reflexivity|].
  destruct (c =? quote)%char; [now apply IH|].
  destruct (c =? space)%char; simpl; [|discriminate].
  destruct inside; simpl; [discriminate|]. now apply IH.
Qed.

Lemma all_spaces_only_delimiters (s : string) :
  all_chars (Ascii.eqb space) s = true -> only_delimiters false s = true.
Proof.
  induction s as [|c s IH]; simpl; [reflexivity|].
  intros Hs. apply andb_prop in Hs as [Hc Hs].
  apply Ascii.eqb_eq in Hc. subst c. now apply IH.
Qed.

Section ExecuteGuards.
Context {W : Type} {H : Host W}.

Lemma execute_blank (line : string) (st : State W) :
  Py.strip line = "" -> execute line st = mkOutcome st [] (Returned None).
Proof. intros Hb. unfold execute, parse. now rewrite Hb. Qed.

Lemma execute_no_tokens (line : string) (st : State W) :
  tokenize line = [] -> execute line st = mkOutcome st [] (Returned None).
Proof.
  intros Ht. unfold execute, parse. rewrite Ht.
  now destruct (negb (Py.truthy (Py.strip line))).
Qed.

(** C9, as the code has it. An input made only of double quotes and of
    spaces standing outside quoted regions (so any input of spaces only)
    has no token; and [execute] on such a line, or on a line made only
    of whitespace, returns at once: nothing emitted, no signal, the
    state as it was. *)
Theorem blank_line_is_ignored (line : string) (st : State W) :
  only_delimiters false line = true \/ all_chars Py.isspace line = true ->
  execute line st = mkOutcome st [] (Returned None) /\
  (only_delimiters false line = true -> tokenize line = []).
Proof.
  intros Hline.
  assert (Hd : only_delimiters false line = true -> tokenize line = []).
  { intros Hd. rewrite tokenize_scan. now apply only_delimiters_scan. }
  split; [|exact Hd].
  destruct Hline as [Hl|Hl].
  - now apply execute_no_tokens, Hd.
  - now apply execute_blank, strip_all_space.
Qed.

End ExecuteGuards.

(** ** Alias resolution *)

Lemma parse_tokens (aliases : dict string) (line head : string)
                   (rest : list string) :
  Py.truthy (Py.strip line) = true -> tokenize line = head :: rest ->
  parse aliases line = Some (resolve aliases head rest).
Proof. intros Hs Ht. unfold parse. now rewrite Hs, Ht. Qed.

Lemma resolve_alias (aliases : dict string) (head expansion : string)
                    (rest : list string) :
  dict_get (Py.lower head) aliases = Some expansion ->
  resolve aliases head rest =
  Aliased (tokenize (expansion ++ " " ++ Py.join " " rest)).
Proof. intros Ha. unfold resolve. now rewrite Ha. Qed.

Lemma resolve_plain (aliases : dict string) (head : string)
                    (rest : list string) :
  dict_get (Py.lower head) aliases = None ->
  resolve aliases head rest = Unaliased (Py.lower head) rest.
Proof. intros Ha. unfold resolve. now rewrite Ha. Qed.

(** C4, as the code has it. The alias table is consulted with the
    lowercased head token, the same string the command lookup uses: the
    branch of the alias check is taken exactly when the line is not
    blank and the lowercased first token is a key of the alias table. *)
Theorem alias_lookup_uses_lowercased_head (aliases : dict string)
                                          (line : string) :
  alias_branch_taken aliases line = true <->
  Py.truthy (Py.strip line) = true /\
  exists head rest,
    tokenize line = head :: rest /\
    dict_mem (Py.lower head) aliases = true.
Proof.
  unfold alias_branch_taken, parse.
  destruct (Py.truthy (Py.strip line)); simpl.
  2: { split; [discriminate | intros [Hf _]; discriminate]. }
  destruct (tokenize line) as [|head rest].
  { split; [discriminate | intros [_ (h & r & Hnil & _)]; discriminate]. }
  unfold resolve, dict_mem.
  destruct (dict_get (Py.lower head) aliases) as [expansion|] eqn:Ha.
  - split; [intros _ | reflexivity].
    split; [reflexivity|]. exists head, rest. now rewrite Ha.
  - split; [discriminate|].
    intros [_ (h & r & Heq & Hm)]. injection Heq as <- <-.
    now rewrite Ha in Hm.
Qed.

Section Dispatch.
Context {W : Type} {H : Host W}.

Lemma execute_aliased (line : string) (st : State W)
                      (head : string) (args : list string) :
  parse (aliases (env st)) line = Some (Aliased (head :: args)) ->
  execute line st = dispatch (Py.lower head) args st.
Proof. intros Hp. unfold execute. now rewrite Hp. Qed.

Lemma execute_unaliased (line : string) (st : State W)
                        (cmd : string) (args : list string) :
  parse (aliases (env st)) line = Some (Unaliased cmd args) ->
  execute line st = dispatch cmd args st.
Proof. intros Hp. unfold execute. now rewrite Hp. Qed.

Lemma dispatch_unknown (cmd : string) (args : list string) (st : State W) :
  dict_get cmd command_map = None ->
  dispatch cmd args st =
  mkOutcome st [(unknown_command cmd, tag_error)] (Returned None).
Proof. intros Hc. unfold dispatch. now rewrite Hc. Qed.

(** C3, as the code has it. When the lowercased head token of a line
    that is not blank is a key of the alias table, the alias check makes
    one substitution: the tokens become those of the expansion, a space
    and the remaining arguments joined by spaces. The new head is not
    looked up in the alias table again: it goes, lowercased, to the
    dispatch table, and is reported as an unknown command when it is not
    there. With [ll] standing for [ls -la] and [ls] not an alias,
    [ll extra] and [ls -la extra] do the same. *)
Theorem alias_substitution_is_single_pass
    (st : State W) (line head expansion : string) (rest : list string) :
  Py.truthy (Py.strip line) = true ->
  tokenize line = head :: rest ->
  dict_get (Py.lower head) (aliases (env st)) = Some expansion ->
  let resolved := tokenize (expansion ++ " " ++ Py.join " " rest) in
  parse (aliases (env st)) line = Some (Aliased resolved) /\
  (forall h args, resolved = h :: args ->
     execute line st = dispatch (Py.lower h) args st /\
     (dict_get (Py.lower h) command_map = None ->
      execute line st =
      mkOutcome st [(unknown_command (Py.lower h), tag_error)]
        (Returned None))) /\
  (line = "ll extra" -> expansion = "ls -la" ->
   dict_get "ls" (aliases (env st)) = None ->
   resolved = tokenize "ls -la extra" /\
   execute "ll extra" st = execute "ls -la extra" st).
Proof.
  intros Hs Ht Ha resolved.
  assert (Hp : parse (aliases (env st)) line = Some (Aliased resolved)).
  { rewrite (parse_tokens _ _ _ _ Hs Ht). f_equal. now apply resolve_alias. }
  split; [exact Hp|]. split.
  - intros h args Hr. rewrite Hr in Hp.
    rewrite (execute_aliased _ _ _ _ Hp).
    split; [reflexivity | apply dispatch_unknown].
  - intros -> -> Hls.
    vm_compute in Ht. injection Ht as <- <-.
    assert (Hr : resolved = ["ls"; "-la"; "extra"]) by reflexivity.
    split; [exact Hr|].
    rewrite Hr in Hp. rewrite (execute_aliased _ _ _ _ Hp).
    symmetry. apply execute_unaliased.
    rewrite (parse_tokens _ "ls -la extra" "ls" ["-la"; "extra"]);
      [|reflexivity|reflexivity].
    f_equal. now apply resolve_plain.
Qed.

Lemma dispatch_returns (cmd : string) (args : list string) (st : State W) :
  exists result, exit (dispatch cmd args st) = Returned result.
Proof.
  unfold dispatch. destruct (dict_get cmd command_map) as [m|]; [|now eexists].
  destruct (call_end (Commands.call m args st)); now eexists.
Qed.

(** The one way out of [execute] by an exception: the alias branch,
    when the rebuilt line has no token. *)
Lemma execute_raises_iff (line : string) (st : State W) :
  exit (execute line st) = IndexError <->
  exists head rest expansion,
    Py.truthy (Py.strip line) = true /\
    tokenize line = head :: rest /\
    dict_get (Py.lower head) (aliases (env st)) = Some expansion /\
    tokenize (expansion ++ " " ++ Py.join " " rest) = [].
Proof.
  unfold execute, parse.
  destruct (Py.truthy (Py.strip line)); simpl.
  2: { split; [discriminate | intros (h & r & e & Hf & _); discriminate]. }
  destruct (tokenize line) as [|head rest].
  { split; [discriminate | intros (h & r & e & _ & Hf & _); discriminate]. }
  unfold resolve.
  destruct (dict_get (Py.lower head) (aliases (env st)))
    as [expansion|] eqn:Ha.
  - destruct (tokenize (expansion ++ " " ++ Py.join " " rest))
      as [|h' r'] eqn:Hre; simpl.
    + split; [intros _ | reflexivity].
      exists head, rest, expansion. auto.
    + destruct (dispatch_returns (Py.lower h') r' st) as [result Hd].
      rewrite Hd. split; [discriminate|].
      intros (h & r & e & _ & Heq & He & Hnil).
      injection Heq as <- <-. rewrite Ha in He. injection He as <-.
      exfalso. revert Hnil.
      change (tokenize (expansion ++ " " ++ Py.join " " rest) = [] -> False).
      rewrite Hre. discriminate.
  - destruct (dispatch_returns (Py.lower head) rest st) as [result Hd].
    rewrite Hd. split; [discriminate|].
    intros (h & r & e & _ & Heq & He & _).
    injection Heq as <- <-. congruence.
Qed.

(** ** Unknown commands *)

Lemma prefix_append (t b : string) : String.prefix t (t ++ b) = true.
Proof.
  induction t as [|c t IH]; simpl; [now destruct b|].
  destruct (ascii_dec c c); [exact IH | congruence].
Qed.

Lemma contains_here (t b : string) : Py.contains t (t ++ b) = true.
Proof.
  assert (Hu : forall s, Py.contains t s = true <->
                         String.prefix t s = true \/
                         match s with
                         | "" => False
                         | String _ s' => Py.contains t s' = true
                         end).
  { intros [|c s]; simpl; rewrite orb_true_iff; intuition discriminate. }
  apply Hu. left. apply prefix_append.
Qed.

Lemma contains_later (t a s : string) :
  Py.contains t s = true -> Py.contains t (a ++ s) = true.
Proof.
  intros Hs. induction a as [|c a IH]; simpl; [exact Hs|].
  rewrite IH. apply orb_true_r.
Qed.

Lemma unknown_command_names (cmd : string) :
  Py.contains cmd (unknown_command cmd) = true.
Proof. unfold unknown_command. apply contains_later, contains_here. Qed.

(** C5, as the code has it. On a line that is not blank and whose
    lowercased head token is neither a key of the alias table nor a
    name of the dispatch table, [execute] emits one line, tagged as an
    error, [Unknown command: <name>. Type 'help' for available
    commands.] where [<name>] is the lowercased head token; it returns
    no signal and leaves the state as it was. *)
Theorem unknown_command_is_reported
    (st : State W) (line head : string) (rest : list string) :
  Py.truthy (Py.strip line) = true ->
  tokenize line = head :: rest ->
  dict_get (Py.lower head) (aliases (env st)) = None ->
  dict_get (Py.lower head) command_map = None ->
  execute line st =
  mkOutcome st
    [("Unknown command: " ++ Py.lower head ++
      ". Type 'help' for available commands." ++ nl, tag_error)]
    (Returned None) /\
  Py.contains (Py.lower head) (unknown_command (Py.lower head)) = true.
Proof.
  intros Hs Ht Ha Hc. split; [|apply unknown_command_names].
  rewrite (execute_unaliased line st (Py.lower head) rest).
  - now apply dispatch_unknown.
  - rewrite (parse_tokens _ _ _ _ Hs Ht). f_equal. now apply resolve_plain.
Qed.

(** ** Faults of a capability *)

(** C6. When the command a line resolves to is in the dispatch table
    and its call raises, [execute] returns normally with no signal, and
    what it adds to the lines the command had written is the one line
    [Error: <message>], tagged as an error. *)
Theorem capability_fault_is_contained
    (st : State W) (line cmd : string) (args : list string)
    (m : Method) (message : string) :
  resolved_command (aliases (env st)) line = Some (cmd, args) ->
  dict_get cmd command_map = Some m ->
  call_end (Commands.call m args st) = Raise message ->
  execute line st =
  mkOutcome (call_state (Commands.call m args st))
    (call_out (Commands.call m args st) ++
     [(("Error: " ++ message ++ nl)%string, tag_error)])%list
    (Returned None).
Proof.
  intros Hr Hm Hraise.
  assert (He : execute line st = dispatch cmd args st).
  { unfold resolved_command in Hr. unfold execute.
    destruct (parse (aliases (env st)) line) as [[c a|[|h a]]|];
      try discriminate; now injection Hr as <- <-. }
  rewrite He. unfold dispatch. now rewrite Hm, Hraise.
Qed.

End Dispatch.

(** ** The history *)

Section History.
Context {W : Type} {H : Host W}.

(** No method of [Commands] writes to the history. *)
Lemma call_keeps_history (m : Method) (args : list string) (st : State W) :
  command_history (env (call_state (Commands.call m args st))) =
  command_history (env st).
Proof.
  destruct m; cbn [Commands.call];
    unfold Commands.help, Commands.echo, Commands.history, Commands.last,
      Commands.clear, Commands.env_, Commands.alias, Commands.on_host;
    split_matches; simpl; congruence.
Qed.

Lemma dispatch_keeps_history (cmd : string) (args : list string)
                             (st : State W) :
  command_history (env (after (dispatch cmd args st))) =
  command_history (env st).
Proof.
  unfold dispatch. destruct (dict_get cmd command_map) as [m|]; [|reflexivity].
  destruct (call_end (Commands.call m args st)); simpl;
    apply call_keeps_history.
Qed.

Lemma execute_keeps_history (line : string) (st : State W) :
  command_history (env (after (execute line st))) = command_history (env st).
Proof.
  unfold execute.
  destruct (parse (aliases (env st)) line) as [[cmd args|[|head args]]|];
    try reflexivity; apply dispatch_keeps_history.
Qed.

Lemma add_and_execute_history (command : string) (st : State W)
                              (text : list Emission) :
  command_history (env (session (fst (add_and_execute command st text)))) =
  (command_history (env st) ++ [command])%list.
Proof.
  unfold add_and_execute.
  set (st' := Commands.with_env _ st).
  assert (He := execute_keeps_history command st').
  destruct (exit (execute command st')) as [result|];
    [destruct (Py.equals result "CLEAR")|]; simpl; rewrite He; reflexivity.
Qed.

Lemma add_and_execute_goes_on (command : string) (st : State W)
                              (text : list Emission) :
  snd (add_and_execute command st text) <> Destroyed.
Proof.
  unfold add_and_execute.
  destruct (exit (execute command _)) as [result|];
    [destruct (Py.equals result "CLEAR")|]; discriminate.
Qed.

Lemma handle_command_history (entry : string) (g : CCLIGUI W) :
  command_history (env (session (fst (handle_command entry g)))) =
  (command_history (env (session g)) ++
   recorded (command_history (env (session g))) entry)%list.
Proof.
  unfold handle_command, recorded.
  destruct (Py.truthy (Py.strip entry)); simpl;
    [|now rewrite app_nil_r].
  destruct (Py.lower (Py.strip entry) =? "exit"); simpl;
    [now rewrite app_nil_r|].
  destruct ((Py.lower (Py.strip entry) =? "clear") ||
            (Py.lower (Py.strip entry) =? "cls")); simpl;
    [now rewrite app_nil_r|].
  destruct (Py.lower (Py.strip entry) =? "last"); simpl;
    [|apply add_and_execute_history].
  unfold Commands.last, Environment.get_last_command.
  destruct (Py.truthy (last (command_history (env (session g))) ""))
    eqn:Hprev; simpl; [|apply add_and_execute_history].
  destruct (last (command_history (env (session g))) "" =? "last"); simpl;
    [apply add_and_execute_history|].
  rewrite Hprev. apply add_and_execute_history.
Qed.

Lemma handle_command_destroyed (entry : string) (g : CCLIGUI W) :
  snd (handle_command entry g) = Destroyed <->
  Py.truthy (Py.strip entry) && (Py.lower (Py.strip entry) =? "exit") = true.
Proof.
  unfold handle_command.
  destruct (Py.truthy (Py.strip entry)); simpl;
    [|split; discriminate].
  destruct (Py.lower (Py.strip entry) =? "exit"); simpl;
    [split; reflexivity|].
  split; [|discriminate]. intros Hd. exfalso. revert Hd.
  destruct ((Py.lower (Py.strip entry) =? "clear") ||
            (Py.lower (Py.strip entry) =? "cls")); [discriminate|].
  destruct (Py.lower (Py.strip entry) =? "last");
    apply add_and_execute_goes_on.
Qed.

Lemma submit_journal (entries : list string) : forall g : CCLIGUI W,
  command_history (env (session (submit entries g))) =
  journal (command_history (env (session g))) entries.
Proof.
  induction entries as [|entry entries IH]; intros g; simpl; [reflexivity|].
  assert (Hh := handle_command_history entry g).
  assert (Hd := handle_command_destroyed entry g).
  destruct (handle_command entry g) as [g' status]; simpl in Hh, Hd.
  destruct (Py.truthy (Py.strip entry) &&
            (Py.lower (Py.strip entry) =? "exit")) eqn:Hexit.
  - assert (status = Destroyed) as -> by now apply Hd.
    rewrite Hh. unfold recorded.
    apply andb_prop in Hexit as [Ht He]. rewrite Ht, He. simpl.
    now rewrite app_nil_r.
  - rewrite <- Hh, <- IH.
    destruct status; try reflexivity.
    destruct Hd as [Hd _]. now specialize (Hd eq_refl).
Qed.

(** C7, as the code has it. [execute] never changes the history, with
    or without an alias; and after any sequence of submissions the
    history is the one before them followed, for each submission in
    turn, by what [recorded] gives from the text typed and the history
    so far: the entry typed without its surrounding blanks, or for
    [last] the entry before it; older entries are never rewritten. *)
Theorem history_records_what_was_typed :
  (forall (line : string) (st : State W),
     command_history (env (after (execute line st))) =
     command_history (env st)) /\
  (forall (entry : string) (g : CCLIGUI W),
     command_history (env (session (fst (handle_command entry g)))) =
     (command_history (env (session g)) ++
      recorded (command_history (env (session g))) entry)%list) /\
  (forall (entries : list string) (g : CCLIGUI W),
     command_history (env (session (submit entries g))) =
     journal (command_history (env (session g))) entries).
Proof.
  split; [exact execute_keeps_history|].
  split; [exact handle_command_history | exact submit_journal].
Qed.

End History.

(** ** Quoting and alias resolution *)

(** With no double quote in [s1], the scanner treats the space after
    [s1] as a separator. *)
Lemma scan_append_space (s1 s2 : string) : forall acc,
  Py.has_char quote s1 = false ->
  reference_scan false acc (s1 ++ String space s2) =
  (reference_scan false acc s1 ++ reference_scan false "" s2)%list.
Proof.
  induction s1 as [|c s1 IH]; intros acc Hq; simpl.
  - apply emit_app.
  - simpl in Hq. apply orb_false_elim in Hq as [Hc Hq]. rewrite Hc.
    destruct (c =? space)%char; [|now apply IH].
    rewrite (emit_app acc), (emit_app acc (reference_scan _ _ s1)).
    rewrite IH by assumption. now rewrite app_assoc.
Qed.

Lemma tokenize_append_space (s1 s2 : string) :
  Py.has_char quote s1 = false ->
  tokenize (s1 ++ " " ++ s2) = (tokenize s1 ++ tokenize s2)%list.
Proof.
  intros Hq. rewrite !tokenize_scan. now apply scan_append_space.
Qed.

Lemma tokenize_join (args : list string) :
  Forall (fun a => Py.has_char quote a = false) args ->
  tokenize (Py.join " " args) = flat_map tokenize args.
Proof.
  unfold Py.join.
  induction args as [|a [|b args] IH]; intros Hq.
  - reflexivity.
  - simpl. now rewrite app_nil_r.
  - inversion Hq as [|? ? Ha Hrest]; subst.
    change (String.concat " " (a :: b :: args))
      with (a ++ " " ++ String.concat " " (b :: args)).
    rewrite tokenize_append_space by assumption.
    cbn [flat_map]. f_equal. now apply IH.
Qed.

Lemma join_quote_free (l : list string) :
  Forall (fun a => Py.has_char quote a = false) l ->
  Py.has_char quote (Py.join " " l) = false.
Proof.
  induction l as [|a [|b l] IH]; intros Hl.
  - reflexivity.
  - now inversion Hl.
  - inversion Hl as [|? ? Ha Hr]; subst.
    change (Py.join " " (a :: b :: l))
      with (a ++ " " ++ Py.join " " (b :: l)).
    rewrite !has_char_app, Ha, IH by assumption. reflexivity.
Qed.

Lemma scan_space_free (s : string) : forall acc,
  Py.has_char quote s = false -> Py.has_char space acc = false ->
  Forall (fun t => Py.has_char space t = false) (reference_scan false acc s).
Proof.
  induction s as [|c s IH]; intros acc Hq Hacc; simpl.
  - unfold emit. destruct (Py.truthy acc); auto.
  - simpl in Hq. apply orb_false_elim in Hq as [Hc Hq]. rewrite Hc.
    destruct (c =? space)%char eqn:Hs.
    + unfold emit. destruct (Py.truthy acc); auto.
    + apply IH; [assumption|]. now rewrite has_char_snoc, Hacc, Hs.
Qed.

Lemma scan_quoted (arg : string) : forall acc,
  Py.has_char quote arg = false ->
  reference_scan true acc (arg ++ String quote "") = emit (acc ++ arg) [].
Proof.
  induction arg as [|c arg IH]; intros acc Hq; simpl.
  - now rewrite append_empty_r.
  - simpl in Hq. apply orb_false_elim in Hq as [Hc Hq]. rewrite Hc.
    assert (Hgo : reference_scan true (Py.snoc acc c)
                    (arg ++ String quote "") =
                  emit (acc ++ String c arg) []).
    { rewrite IH by assumption. now rewrite snoc_append. }
    now destruct (c =? space)%char.
Qed.

Lemma tokenize_quoted (arg : string) :
  clean arg -> reference_scan false "" (quoted arg) = [arg].
Proof.
  intros [Hne Hq]. unfold quoted. simpl.
  rewrite scan_quoted by assumption. simpl. unfold emit.
  apply truthy_spec in Hne. now rewrite Hne.
Qed.

Lemma scan_has_token (u : string) : forall acc,
  Py.has_char quote u = false ->
  Py.truthy acc = true \/ all_chars (Ascii.eqb space) u = false ->
  reference_scan false acc u <> [].
Proof.
  induction u as [|c u IH]; intros acc Hq Hsome; simpl.
  - destruct Hsome as [Ha|Hu]; [|discriminate].
    unfold emit. rewrite Ha. discriminate.
  - simpl in Hq. apply orb_false_elim in Hq as [Hc Hq]. rewrite Hc.
    destruct (c =? space)%char eqn:Hs.
    + unfold emit. destruct (Py.truthy acc) eqn:Ha; [discriminate|].
      apply IH; [assumption|]. right.
      destruct Hsome as [Ha'|Hu]; [congruence|].
      simpl in Hu. rewrite Ascii.eqb_sym, Hs in Hu. exact Hu.
    + apply IH; [assumption|]. left. apply truthy_snoc.
Qed.

Lemma tokenize_clean (s : string) : Forall clean (tokenize s).
Proof. rewrite tokenize_scan. now apply reference_scan_clean. Qed.

(** C10, as the code has it. Let the lowercased head token of a line
    be an alias whose expansion has no double quote. The resolved tokens
    are those of the expansion followed by those of each argument
    tokenized again, so none of them contains a space: an argument with
    a space in it is never kept (it gives two tokens or more when it has
    other characters on both sides of a space), while the expansion
    typed with the same argument between quotes keeps it as one token. *)
Theorem alias_resolution_loses_quoting
    (aliases : dict string) (line head expansion arg : string)
    (rest : list string) :
  Py.truthy (Py.strip line) = true ->
  tokenize line = head :: rest ->
  dict_get (Py.lower head) aliases = Some expansion ->
  Py.has_char quote expansion = false ->
  In arg rest ->
  Py.has_char space arg = true ->
  let resolved := (tokenize expansion ++ flat_map tokenize rest)%list in
  parse aliases line = Some (Aliased resolved) /\
  Forall (fun t => Py.has_char space t = false) resolved /\
  ~ In arg resolved /\
  (forall u v, arg = u ++ " " ++ v ->
     all_chars (Ascii.eqb space) u = false ->
     all_chars (Ascii.eqb space) v = false ->
     2 <= length (tokenize arg)) /\
  tokenize (expansion ++ " " ++ quoted arg) =
  (tokenize expansion ++ [arg])%list.
Proof.
  intros Hs Ht Ha Hexp Hin Hsp resolved.
  assert (Hrest : Forall clean rest).
  { pose proof (tokenize_clean line) as Hc. rewrite Ht in Hc.
    now inversion Hc. }
  assert (Hrestq : Forall (fun a => Py.has_char quote a = false) rest).
  { eapply Forall_impl; [|exact Hrest]. now intros a [_ Hq]. }
  assert (Harg : clean arg) by (rewrite Forall_forall in Hrest; auto).
  assert (Hres : tokenize (expansion ++ " " ++ Py.join " " rest) = resolved).
  { rewrite tokenize_append_space by assumption.
    now rewrite tokenize_join. }
  assert (Hfree : Forall (fun t => Py.has_char space t = false) resolved).
  { rewrite <- Hres, tokenize_scan. apply scan_space_free; [|reflexivity].
    rewrite !has_char_app, Hexp. simpl.
    now apply join_quote_free. }
  split.
  { rewrite (parse_tokens _ _ _ _ Hs Ht), (resolve_alias _ _ _ _ Ha).
    now rewrite Hres. }
  split; [exact Hfree|]. split.
  { intros Hmem. rewrite Forall_forall in Hfree.
    specialize (Hfree _ Hmem). congruence. }
  split.
  - intros u v -> Hu Hv. destruct Harg as [_ Hq].
    rewrite !has_char_app in Hq. simpl in Hq.
    apply orb_false_elim in Hq as [Hqu Hqv].
    rewrite tokenize_append_space by assumption.
    rewrite !tokenize_scan, length_app.
    pose proof (scan_has_token u "" Hqu (or_intror Hu)) as Hnu.
    pose proof (scan_has_token v "" Hqv (or_intror Hv)) as Hnv.
    destruct (reference_scan false "" u); [congruence|].
    destruct (reference_scan false "" v); [congruence|].
    simpl. lia.
  - rewrite !tokenize_scan.
    change (expansion ++ " " ++ quoted arg)
      with (expansion ++ String space (quoted arg)).
    rewrite scan_append_space by assumption.
    now rewrite tokenize_quoted.
Qed.

(** ** Alias expansions of a session *)

Lemma dict_set_unquoted (k v : string) (d : dict string) :
  unquoted d -> Py.has_char quote v = false -> unquoted (dict_set k v d).
Proof.
  unfold unquoted. intros Hd Hv.
  induction d as [|[k' v'] d IH]; simpl.
  - now constructor.
  - inversion Hd as [|? ? Hkv Hrest]; subst.
    destruct (k' =? k); constructor; auto.
Qed.

Lemma dict_get_unquoted (k v : string) (d : dict string) :
  unquoted d -> dict_get k d = Some v -> Py.has_char quote v = false.
Proof.
  unfold unquoted. intros Hd.
  induction d as [|[k' v'] d IH]; simpl; [discriminate|].
  inversion Hd as [|? ? Hkv Hrest]; subst.
  destruct (k' =? k); [|now apply IH].
  intros Hv. now injection Hv as <-.
Qed.

Section Expansions.
Context {W : Type} {H : Host W}.

Lemma call_keeps_unquoted (m : Method) (args : list string) (st : State W) :
  Forall (fun a => Py.has_char quote a = false) args ->
  unquoted (aliases (env st)) ->
  unquoted (aliases (env (call_state (Commands.call m args st)))).
Proof.
  intros Hargs Hst.
  destruct m; cbn [Commands.call];
    unfold Commands.help, Commands.echo, Commands.history, Commands.last,
      Commands.clear, Commands.env_, Commands.on_host;
    split_matches; try exact Hst.
  unfold Commands.alias.
  destruct args as [|name [|arg rest]].
  - simpl. destruct (aliases (env st)) eqn:E; simpl; rewrite E; exact Hst.
  - simpl. destruct (Environment.get_alias name (env st)) as [command|];
      [destruct (Py.truthy command)|]; exact Hst.
  - cbn [call_state env aliases Commands.with_env Environment.set_alias].
    apply dict_set_unquoted; [exact Hst|].
    apply join_quote_free. now inversion Hargs.
Qed.

Lemma dispatch_keeps_unquoted (cmd : string) (args : list string)
                              (st : State W) :
  Forall (fun a => Py.has_char quote a = false) args ->
  unquoted (aliases (env st)) ->
  unquoted (aliases (env (after (dispatch cmd args st)))).
Proof.
  intros Hargs Hst. unfold dispatch.
  destruct (dict_get cmd command_map) as [m|]; [|exact Hst].
  destruct (call_end (Commands.call m args st)); simpl;
    now apply call_keeps_unquoted.
Qed.

Lemma tokens_unquoted (s head : string) (rest : list string) :
  tokenize s = head :: rest ->
  Forall (fun a => Py.has_char quote a = false) rest.
Proof.
  intros Ht. pose proof (tokenize_clean s) as Hc. rewrite Ht in Hc.
  inversion Hc as [|? ? _ Hrest]; subst.
  eapply Forall_impl; [|exact Hrest]. now intros a [_ Hq].
Qed.

Lemma execute_keeps_unquoted (line : string) (st : State W) :
  unquoted (aliases (env st)) ->
  unquoted (aliases (env (after (execute line st)))).
Proof.
  intros Hst. unfold execute, parse.
  destruct (negb (Py.truthy (Py.strip line))); [exact Hst|].
  destruct (tokenize line) as [|head rest] eqn:Ht; [exact Hst|].
  unfold resolve.
  destruct (dict_get (Py.lower head) (aliases (env st))) as [expansion|].
  - destruct (tokenize (expansion ++ " " ++ Py.join " " rest))
      as [|head' rest'] eqn:Ht'; [exact Hst|].
    apply dispatch_keeps_unquoted; [|exact Hst].
    now apply (tokens_unquoted _ _ _ Ht').
  - apply dispatch_keeps_unquoted; [|exact Hst].
    now apply (tokens_unquoted _ _ _ Ht).
Qed.

(** In every state of a session the alias expansions are free of double
    quotes: the [alias] command stores tokens joined by spaces. *)
Lemma reachable_unquoted (st : State W) :
  reachable st -> unquoted (aliases (env st)).
Proof.
  induction 1 as [cwd w|command st _ IH|line st _ IH].
  - constructor.
  - exact IH.
  - now apply execute_keeps_unquoted.
Qed.

End Expansions.

(** ** History navigation *)

Lemma list_item_in_range {A : Type} (l : list A) (i : Z) :
  (0 <= i < Z.of_nat (length l))%Z ->
  list_item l i = nth_error l (Z.to_nat i).
Proof.
  intros Hi. unfold list_item.
  destruct (Z.ltb_spec i (- Z.of_nat (length l))); [lia|].
  destruct (Z.leb_spec (Z.of_nat (length l)) i); [lia|]. simpl.
  destruct (Z.ltb_spec i 0); [lia | reflexivity].
Qed.

Lemma list_item_some {A : Type} (l : list A) (i : Z) :
  (0 <= i < Z.of_nat (length l))%Z -> exists x, list_item l i = Some x.
Proof.
  intros Hi. rewrite list_item_in_range by assumption.
  destruct (nth_error l (Z.to_nat i)) as [x|] eqn:Hx; [now exists x|].
  apply nth_error_None in Hx. lia.
Qed.

Section Cursor.
Context {W : Type} {H : Host W}.

Lemma add_and_execute_cursor (command : string) (st : State W)
                             (text : list Emission) :
  history_index (fst (add_and_execute command st text)) =
  Z.of_nat (length (command_history
                      (env (session (fst (add_and_execute command st text)))))).
Proof.
  rewrite add_and_execute_history. unfold add_and_execute.
  destruct (exit (execute command _)) as [result|];
    [destruct (Py.equals result "CLEAR")|]; reflexivity.
Qed.

Lemma handle_command_cursor (entry : string) (g : CCLIGUI W) :
  cursor_in_range g -> cursor_in_range (fst (handle_command entry g)).
Proof.
  intros Hg. unfold handle_command.
  destruct (negb (Py.truthy (Py.strip entry))); [exact Hg|].
  destruct (Py.lower (Py.strip entry) =? "exit"); [exact Hg|].
  destruct ((Py.lower (Py.strip entry) =? "clear") ||
            (Py.lower (Py.strip entry) =? "cls")); [exact Hg|].
  destruct (Py.lower (Py.strip entry) =? "last");
    unfold cursor_in_range; rewrite add_and_execute_cursor; lia.
Qed.

Lemma history_up_cursor (g : CCLIGUI W) (entry : string) :
  cursor_in_range g ->
  cursor_in_range (window (history_up g entry)) /\
  raised (history_up g entry) = false.
Proof.
  unfold cursor_in_range, history_up. intros Hg.
  destruct (Z.ltb_spec 0 (history_index g)); [|now split].
  destruct (list_item_some (command_history (env (session g)))
              (history_index g - 1)) as [c Hc]; [lia|].
  simpl. rewrite Hc. simpl. split; [lia | reflexivity].
Qed.

Lemma history_down_cursor (g : CCLIGUI W) (entry : string) :
  cursor_in_range g ->
  cursor_in_range (window (history_down g entry)) /\
  raised (history_down g entry) = false.
Proof.
  unfold cursor_in_range, history_down. intros Hg.
  destruct (Z.ltb_spec (history_index g)
              (Z.of_nat (length (command_history (env (session g)))) - 1)).
  - destruct (list_item_some (command_history (env (session g)))
                (history_index g + 1)) as [c Hc]; [lia|].
    simpl. rewrite Hc. simpl. split; [lia | reflexivity].
  - simpl. split; [lia | reflexivity].
Qed.

Lemma play_cursor (events : list Event) :
  forall (g : CCLIGUI W) (entry : string),
  cursor_in_range g -> cursor_in_range (fst (play events g entry)).
Proof.
  induction events as [|e events IH]; intros g entry Hg; simpl; [exact Hg|].
  destruct e as [typed| |]; simpl.
  - pose proof (handle_command_cursor typed g Hg) as Hh.
    destruct (handle_command typed g) as [g' []]; simpl in *;
      [now apply IH | exact Hg | now apply IH].
  - now apply IH, history_up_cursor.
  - now apply IH, history_down_cursor.
Qed.

(** X1. Whatever the user has typed and whichever arrow keys were
    pressed since the window opened, the history cursor is [-1] or a
    position of the history or one past its end, and neither arrow key
    raises: the history lookups of [history_up] and [history_down] are
    in range. *)
Theorem arrow_keys_never_raise
    (events : list Event) (cwd : string) (w : W) (entry : string) :
  let g := fst (play events (gui_init cwd w) entry) in
  cursor_in_range g /\
  (forall text, raised (history_up g text) = false) /\
  (forall text, raised (history_down g text) = false).
Proof.
  intros g.
  assert (Hg : cursor_in_range g).
  { apply play_cursor. unfold cursor_in_range. simpl. lia. }
  split; [exact Hg|]. split; intros text.
  - now apply history_up_cursor.
  - now apply history_down_cursor.
Qed.

Lemma up_steps (n : nat) : forall (g : CCLIGUI W) (entry c : string),
  (1 <= Z.of_nat n <= history_index g)%Z ->
  (history_index g <=
   Z.of_nat (length (command_history (env (session g)))))%Z ->
  nth_error (command_history (env (session g)))
    (Z.to_nat (history_index g - Z.of_nat n)) = Some c ->
  play (repeat Up n) g entry =
  (mkGUI (session g) (output_text g) (history_index g - Z.of_nat n)%Z, c).
Proof.
  induction n as [|n IH]; intros g entry c Hn Hlen Hc; [lia|].
  cbn [repeat play react]. unfold history_up.
  destruct (Z.ltb_spec 0 (history_index g)); [|lia].
  destruct (list_item_some (command_history (env (session g)))
              (history_index g - 1)) as [c1 Hc1]; [lia|].
  cbn [history_index]. rewrite Hc1. cbn [window input_entry].
  destruct n as [|n].
  - simpl. rewrite list_item_in_range in Hc1 by lia.
    replace (history_index g - Z.of_nat 1)%Z
      with (history_index g - 1)%Z in * by lia.
    congruence.
  - rewrite (IH _ c1 c); cbn [session output_text history_index];
      [f_equal; f_equal; lia | lia | lia |].
    rewrite <- Hc. f_equal. lia.
Qed.

Lemma up_at_oldest (n : nat) (g : CCLIGUI W) (entry : string) :
  (history_index g <= 0)%Z -> play (repeat Up n) g entry = (g, entry).
Proof.
  intros Hi. induction n as [|n IH]; [reflexivity|].
  cbn [repeat play react]. unfold history_up.
  destruct (Z.ltb_spec 0 (history_index g)); [lia|]. exact IH.
Qed.

(** X2. With the cursor at position [i] of the history, pressing Up
    [n] times ([1 <= n <= i]) puts the cursor at [i - n] and shows the
    entry stored there in the input field, so from the end of the
    history the entries come back newest first; at the oldest entry
    further presses of Up change neither the cursor nor the field. *)
Theorem up_walks_back_through_history
    (n k : nat) (g : CCLIGUI W) (entry c : string) :
  (1 <= Z.of_nat n <= history_index g)%Z ->
  (history_index g <=
   Z.of_nat (length (command_history (env (session g)))))%Z ->
  nth_error (command_history (env (session g)))
    (Z.to_nat (history_index g - Z.of_nat n)) = Some c ->
  play (repeat Up n) g entry =
  (mkGUI (session g) (output_text g) (history_index g - Z.of_nat n)%Z, c) /\
  (Z.of_nat n = history_index g ->
   play (repeat Up (n + k)) g entry = play (repeat Up n) g entry).
Proof.
  intros Hn Hlen Hc.
  pose proof (up_steps n g entry c Hn Hlen Hc) as Hwalk.
  split; [exact Hwalk|]. intros Hall.
  assert (Happ : forall a b (g0 : CCLIGUI W) e0,
             play (repeat Up (a + b)) g0 e0 =
             play (repeat Up b) (fst (play (repeat Up a) g0 e0))
               (snd (play (repeat Up a) g0 e0))).
  { induction a as [|a IHa]; intros b g0 e0; [reflexivity|].
    cbn [Nat.add repeat play react]. apply IHa. }
  rewrite Happ, Hwalk. cbn [fst snd].
  apply up_at_oldest. cbn [history_index]. lia.
Qed.

(** X3. Up and Down undo each other. With the cursor on or after an
    entry that has an older one, Up then Down brings the cursor back,
    the field showing the entry at the cursor, or nothing when the
    cursor is past the end; with the cursor on an entry that has a newer
    one, Down then Up brings the cursor back and shows its entry. *)
Theorem up_and_down_undo_each_other (g : CCLIGUI W) (entry : string) :
  cursor_in_range g ->
  let history := command_history (env (session g)) in
  let shows (i : Z) : string :=
    match nth_error history (Z.to_nat i) with Some c => c | None => "" end in
  ((0 < history_index g)%Z ->
   let r := history_up g entry in
   let r' := history_down (window r) (input_entry r) in
   window r' = g /\ input_entry r' = shows (history_index g)) /\
  ((0 <= history_index g < Z.of_nat (length history) - 1)%Z ->
   let r := history_down g entry in
   let r' := history_up (window r) (input_entry r) in
   window r' = g /\ input_entry r' = shows (history_index g)).
Proof.
  intros Hg history shows. unfold cursor_in_range in Hg. fold history in Hg.
  assert (Hgui : forall i, i = history_index g ->
                           mkGUI (session g) (output_text g) i = g)
    by (intros i ->; now destruct g).
  split; intros Hi r r'; subst r r'; unfold history_up, history_down.
  - destruct (Z.ltb_spec 0 (history_index g)); [|lia].
    destruct (list_item_some history (history_index g - 1)) as [c Hc]; [lia|].
    cbn [history_index]. fold history. rewrite Hc.
    cbn [window input_entry session env output_text history_index].
    fold history.
    destruct (Z.ltb_spec (history_index g - 1) (Z.of_nat (length history) - 1)).
    + destruct (list_item_some history (history_index g - 1 + 1))
        as [c' Hc']; [lia|].
      rewrite Hc'. cbn [window input_entry]. split; [apply Hgui; lia|].
      rewrite list_item_in_range in Hc' by lia. unfold shows.
      replace (history_index g - 1 + 1)%Z with (history_index g) in Hc'
        by lia.
      now rewrite Hc'.
    + cbn [window input_entry]. split; [apply Hgui; lia|].
      unfold shows.
      destruct (nth_error history (Z.to_nat (history_index g))) eqn:Hn;
        [|reflexivity].
      assert (Z.to_nat (history_index g) < length history)%nat
        by (apply nth_error_Some; congruence).
      lia.
  - fold history.
    destruct (Z.ltb_spec (history_index g) (Z.of_nat (length history) - 1));
      [|lia].
    destruct (list_item_some history (history_index g + 1)) as [c Hc]; [lia|].
    cbn [history_index]. rewrite Hc.
    cbn [window input_entry session env output_text history_index].
    destruct (Z.ltb_spec 0 (history_index g + 1)); [|lia].
    fold history.
    destruct (list_item_some history (history_index g + 1 - 1))
      as [c' Hc']; [lia|].
    rewrite Hc'. cbn [window input_entry]. split; [apply Hgui; lia|].
    rewrite list_item_in_range in Hc' by lia. unfold shows.
    replace (history_index g + 1 - 1)%Z with (history_index g) in Hc' by lia.
    now rewrite Hc'.
Qed.

End Cursor.

(** ** The environment *)

Lemma dict_get_set_same {V : Type} (k : string) (v : V) (d : dict V) :
  dict_get k (dict_set k v d) = Some v.
Proof.
  induction d as [|[k' v'] d IH]; simpl.
  - now rewrite String.eqb_refl.
  - destruct (k' =? k) eqn:Hk; simpl; rewrite Hk; [reflexivity | exact IH].
Qed.

Lemma dict_get_set_other {V : Type} (k k' : string) (v : V) (d : dict V) :
  k' <> k -> dict_get k' (dict_set k v d) = dict_get k' d.
Proof.
  intros Hne. induction d as [|[k0 v0] d IH]; simpl.
  - apply String.eqb_neq in Hne. rewrite String.eqb_sym. now rewrite Hne.
  - destruct (k0 =? k) eqn:Hk; simpl; [|now rewrite IH].
    apply String.eqb_eq in Hk. subst k0.
    destruct (k =? k') eqn:Hk'; [|reflexivity].
    apply String.eqb_eq in Hk'. congruence.
Qed.

Lemma dict_mem_set {V : Type} (k k' : string) (v : V) (d : dict V) :
  dict_mem k' d = true -> dict_mem k' (dict_set k v d) = true.
Proof.
  unfold dict_mem. destruct (String.eqb_spec k' k) as [->|Hne].
  - now rewrite dict_get_set_same.
  - now rewrite dict_get_set_other.
Qed.

(** The keys of a dictionary after [d[k] = v]: as before when [k] was a
    key, with [k] added at the end otherwise. *)
Lemma dict_set_keys {V : Type} (k : string) (v : V) (d : dict V) :
  map fst (dict_set k v d) =
  if dict_mem k d then map fst d else (map fst d ++ [k])%list.
Proof.
  unfold dict_mem. induction d as [|[k' v'] d IH]; simpl; [reflexivity|].
  destruct (k' =? k); simpl; [reflexivity|]. rewrite IH.
  now destruct (dict_get k d).
Qed.

(** X4. The accessors of the environment: a variable or an alias that
    was set reads back as set and no other name is affected; a variable
    that was never set reads as the empty string and an alias that was
    never set as [None]; the command added to the history last is the
    last command, which is the empty string for an empty history;
    setting a name again keeps its place among the names, a new name
    goes last. *)
Theorem environment_accessors_round_trip
    (name value : string) (e : CCLIEnvironment) :
  let vars := Environment.set_variable name value e in
  let als := Environment.set_alias name value e in
  (Environment.get_variable name vars = value /\
   forall other, other <> name ->
     Environment.get_variable other vars = Environment.get_variable other e) /\
  (Environment.get_alias name als = Some value /\
   forall other, other <> name ->
     Environment.get_alias other als = Environment.get_alias other e) /\
  (Environment.get_variable name (Environment.init value) =
   (if name =? "PATH" then "/usr/local/bin:/usr/bin:/bin" else "") /\
   Environment.get_alias name (Environment.init value) = None /\
   Environment.get_last_command (Environment.init value) = "") /\
  Environment.get_last_command (Environment.add_to_history value e) = value /\
  map fst (aliases als) =
  (if dict_mem name (aliases e) then map fst (aliases e)
   else (map fst (aliases e) ++ [name])%list).
Proof.
  intros vars als. repeat split.
  - unfold Environment.get_variable, vars. simpl.
    now rewrite dict_get_set_same.
  - intros other Hne. unfold Environment.get_variable, vars. simpl.
    now rewrite dict_get_set_other.
  - apply dict_get_set_same.
  - intros other Hne. now apply dict_get_set_other.
  - unfold Environment.get_variable, Environment.init.
    cbn [variables dict_get]. rewrite (String.eqb_sym "PATH" name).
    now destruct (name =? "PATH").
  - unfold Environment.get_last_command. simpl. apply last_last.
  - apply dict_set_keys.
Qed.

Section Frame.
Context {W : Type} {H : Host W}.

Lemma execute_resolved (line : string) (st : State W)
                       (cmd : string) (args : list string) :
  resolved_command (aliases (env st)) line = Some (cmd, args) ->
  execute line st = dispatch cmd args st.
Proof.
  unfold resolved_command, execute. intros Hr.
  destruct (parse (aliases (env st)) line) as [[c a|[|h a]]|];
    try discriminate; now injection Hr as <- <-.
Qed.

Lemma execute_unresolved (line : string) (st : State W) :
  resolved_method (aliases (env st)) line = None ->
  after (execute line st) = st.
Proof.
  unfold resolved_method. intros Hm.
  destruct (resolved_command (aliases (env st)) line) as [[cmd args]|] eqn:Hr.
  - rewrite (execute_resolved _ _ _ _ Hr). unfold dispatch. now rewrite Hm.
  - unfold resolved_command in Hr. unfold execute.
    destruct (parse (aliases (env st)) line) as [[c a|[|h a]]|];
      try discriminate; reflexivity.
Qed.

Lemma call_frame (m : Method) (args : list string) (st : State W) :
  let st' := call_state (Commands.call m args st) in
  (m <> Alias -> aliases (env st') = aliases (env st)) /\
  (m <> Env -> variables (env st') = variables (env st)) /\
  (m <> Cd -> current_dir (env st') = current_dir (env st)).
Proof.
  destruct m; repeat split; intros Hm; try (now elim Hm);
    cbn [Commands.call];
    unfold Commands.help, Commands.echo, Commands.history, Commands.last,
      Commands.clear, Commands.env_, Commands.alias, Commands.on_host;
    split_matches; reflexivity.
Qed.

Lemma dispatch_state (cmd : string) (args : list string) (st : State W)
                     (m : Method) :
  dict_get cmd command_map = Some m ->
  after (dispatch cmd args st) = call_state (Commands.call m args st).
Proof.
  intros Hm. unfold dispatch. rewrite Hm.
  now destruct (call_end (Commands.call m args st)).
Qed.

(** X5. Each component of the environment has one command that may
    write it: running a line leaves the alias table as it was unless
    the line resolves to [alias], the variables unless it resolves to
    [env], the current directory unless it resolves to [cd]; and a line
    that resolves to no registered command leaves the whole state as it
    was. *)
Theorem only_the_owner_writes (line : string) (st : State W) :
  let m := resolved_method (aliases (env st)) line in
  let st' := after (execute line st) in
  (m <> Some Alias -> aliases (env st') = aliases (env st)) /\
  (m <> Some Env -> variables (env st') = variables (env st)) /\
  (m <> Some Cd -> current_dir (env st') = current_dir (env st)) /\
  (m = None -> st' = st).
Proof.
  intros m st'.
  assert (Hnone : m = None -> st' = st) by apply execute_unresolved.
  destruct m as [m0|] eqn:Hm.
  2: { rewrite Hnone by reflexivity. now repeat split. }
  unfold m, resolved_method in Hm.
  destruct (resolved_command (aliases (env st)) line) as [[cmd args]|] eqn:Hr;
    [|discriminate].
  assert (Hst : st' = call_state (Commands.call m0 args st)).
  { unfold st'. rewrite (execute_resolved _ _ _ _ Hr).
    now apply dispatch_state. }
  rewrite Hst. destruct (call_frame m0 args st) as (Ha & Hv & Hc).
  repeat split; try discriminate; intros Hne;
    [apply Ha | apply Hv | apply Hc]; congruence.
Qed.

Lemma call_keeps_names (m : Method) (args : list string) (st : State W)
                       (name : string) :
  let st' := call_state (Commands.call m args st) in
  (dict_mem name (aliases (env st)) = true ->
   dict_mem name (aliases (env st')) = true) /\
  (dict_mem name (variables (env st)) = true ->
   dict_mem name (variables (env st')) = true).
Proof.
  intros st'. destruct (call_frame m args st) as (Ha & Hv & _).
  fold st' in Ha, Hv.
  split; intros Hin.
  - destruct m; try (rewrite Ha by discriminate; exact Hin).
    unfold st'. cbn [Commands.call]. unfold Commands.alias.
    destruct args as [|n [|a r]].
    + destruct (aliases (env st)) eqn:E; simpl; rewrite E; exact Hin.
    + destruct (Environment.get_alias n (env st)) as [c|];
        [destruct (Py.truthy c)|]; exact Hin.
    + now apply dict_mem_set.
  - destruct m; try (rewrite Hv by discriminate; exact Hin).
    unfold st'. cbn [Commands.call]. unfold Commands.env_.
    destruct args as [|n [|a r]].
    + exact Hin.
    + destruct (Py.truthy (Environment.get_variable n (env st)));
        exact Hin.
    + now apply dict_mem_set.
Qed.

(** X6. Nothing is ever forgotten: a name that is a key of the alias
    table, or of the variables, is still one after any line is run
    (there is no way to remove an alias or a variable). *)
Theorem names_are_never_removed (line name : string) (st : State W) :
  let st' := after (execute line st) in
  (dict_mem name (aliases (env st)) = true ->
   dict_mem name (aliases (env st')) = true) /\
  (dict_mem name (variables (env st)) = true ->
   dict_mem name (variables (env st')) = true).
Proof.
  intros st'.
  destruct (resolved_method (aliases (env st)) line) as [m|] eqn:Hm.
  - unfold resolved_method in Hm.
    destruct (resolved_command (aliases (env st)) line)
      as [[cmd args]|] eqn:Hr; [|discriminate].
    unfold st'. rewrite (execute_resolved _ _ _ _ Hr).
    rewrite (dispatch_state _ _ _ _ Hm). apply call_keeps_names.
  - unfold st'. rewrite (execute_unresolved _ _ Hm). now split.
Qed.

End Frame.

(** ** Defining and using aliases and variables *)

Lemma lower_char_idempotent (c : ascii) :
  Py.lower_char (Py.lower_char c) = Py.lower_char c.
Proof. destruct c as [[] [] [] [] [] [] [] []]; reflexivity. Qed.

Lemma lower_idempotent (s : string) : Py.lower (Py.lower s) = Py.lower s.
Proof.
  induction s as [|c s IH]; simpl; [reflexivity|].
  now rewrite lower_char_idempotent, IH.
Qed.

Lemma join_truthy (rest : list string) :
  rest <> [] -> Forall (fun t => t <> "") rest ->
  Py.truthy (Py.join " " rest) = true.
Proof.
  intros Hne Hall. destruct rest as [|a rest]; [congruence|].
  inversion Hall as [|? ? Ha _]; subst.
  apply truthy_spec. unfold Py.join. simpl.
  destruct rest; [exact Ha|]. destruct a; [congruence | discriminate].
Qed.

Lemma tokenize_nil_iff (u : string) :
  Py.has_char quote u = false ->
  tokenize u = [] <-> all_chars (Ascii.eqb space) u = true.
Proof.
  intros Hq. rewrite tokenize_scan. split.
  - intros Hnil.
    destruct (all_chars (Ascii.eqb space) u) eqn:Hall; [reflexivity|].
    now destruct (scan_has_token u "" Hq (or_intror Hall)).
  - intros Hall. now apply only_delimiters_scan, all_spaces_only_delimiters.
Qed.

Lemma flat_map_nil_iff {A B : Type} (f : A -> list B) (l : list A) :
  flat_map f l = [] <-> Forall (fun a => f a = []) l.
Proof.
  induction l as [|a l IH]; simpl; split; intros Hl.
  - constructor.
  - reflexivity.
  - apply app_eq_nil in Hl as [Ha Hl]. constructor; [exact Ha | now apply IH].
  - inversion Hl as [|? ? Ha Hrest]; subst. rewrite Ha. now apply IH.
Qed.


Section Aliases.
Context {W : Type} {H : Host W}.

(** X7. After [alias NAME WORD...] has run, [alias NAME] shows the
    words joined by spaces, and every line that is not blank and whose
    head token lowercased is [NAME] takes the alias branch with these
    words put before its arguments, whatever [NAME] stood for before. *)
Theorem alias_define_then_use
    (st : State W) (name line head : string) (rest args : list string) :
  rest <> [] ->
  Forall (fun t => t <> "") rest ->
  Py.truthy (Py.strip line) = true ->
  tokenize line = head :: args ->
  Py.lower head = name ->
  let st' := call_state (Commands.alias (name :: rest) st) in
  call_out (Commands.alias [name] st') =
  [(name ++ "='" ++ Py.join " " rest ++ "'" ++ nl, tag_output)] /\
  parse (aliases (env st')) line =
  Some (Aliased (tokenize (Py.join " " rest ++ " " ++ Py.join " " args))).
Proof.
  intros Hne Hall Hs Ht Hh st'.
  assert (Hget : dict_get name (aliases (env st')) = Some (Py.join " " rest)).
  { unfold st', Commands.alias. destruct rest as [|a r]; [congruence|].
    apply dict_get_set_same. }
  split.
  - unfold Commands.alias at 1. unfold Environment.get_alias.
    rewrite Hget. now rewrite join_truthy.
  - rewrite (parse_tokens _ _ _ _ Hs Ht). f_equal.
    apply resolve_alias. now rewrite Hh.
Qed.

(** X8. An alias whose name contains an uppercase letter is stored
    but can never be used: defining it changes the resolution of no
    line at all. *)
Theorem uppercase_alias_name_is_dead
    (st : State W) (name line : string) (rest : list string) :
  rest <> [] ->
  Py.lower name <> name ->
  let st' := call_state (Commands.alias (name :: rest) st) in
  dict_get name (aliases (env st')) = Some (Py.join " " rest) /\
  parse (aliases (env st')) line = parse (aliases (env st)) line /\
  resolved_command (aliases (env st')) line =
  resolved_command (aliases (env st)) line.
Proof.
  intros Hne Hup st'.
  assert (Hals : aliases (env st') =
                 dict_set name (Py.join " " rest) (aliases (env st))).
  { unfold st', Commands.alias. destruct rest as [|a r]; [congruence|].
    reflexivity. }
  assert (Hp : parse (aliases (env st')) line =
               parse (aliases (env st)) line).
  { rewrite Hals. unfold parse.
    destruct (negb (Py.truthy (Py.strip line))); [reflexivity|].
    destruct (tokenize line) as [|head args]; [reflexivity|].
    unfold resolve. rewrite dict_get_set_other; [reflexivity|].
    intros Heq. apply Hup. rewrite <- Heq. apply lower_idempotent. }
  split; [rewrite Hals; apply dict_get_set_same|].
  split; [exact Hp|]. unfold resolved_command. now rewrite Hp.
Qed.




(** X11. In a session, [execute] lets an exception out in one case
    only: the head token lowercased is an alias, its expansion is made
    of spaces alone, and so is every argument of the line. *)
Theorem execute_raises_exactly_on_blank_alias (st : State W) (line : string) :
  reachable st ->
  exit (execute line st) = IndexError <->
  exists head rest expansion,
    Py.truthy (Py.strip line) = true /\
    tokenize line = head :: rest /\
    dict_get (Py.lower head) (aliases (env st)) = Some expansion /\
    all_chars (Ascii.eqb space) expansion = true /\
    Forall (fun a => all_chars (Ascii.eqb space) a = true) rest.
Proof.
  intros Hreach. apply reachable_unquoted in Hreach.
  rewrite execute_raises_iff.
  assert (Hblank : forall head rest expansion,
             tokenize line = head :: rest ->
             dict_get (Py.lower head) (aliases (env st)) = Some expansion ->
             tokenize (expansion ++ " " ++ Py.join " " rest) = [] <->
             all_chars (Ascii.eqb space) expansion = true /\
             Forall (fun a => all_chars (Ascii.eqb space) a = true) rest).
  { intros head rest expansion Ht Ha.
    pose proof (dict_get_unquoted _ _ _ Hreach Ha) as Hq.
    pose proof (tokens_unquoted _ _ _ Ht) as Hrest.
    rewrite tokenize_append_space by assumption.
    rewrite tokenize_join by assumption.
    split.
    - intros Hnil. apply app_eq_nil in Hnil as [He Hr].
      split; [now apply tokenize_nil_iff|].
      apply flat_map_nil_iff in Hr. rewrite Forall_forall in *.
      intros a Ha'. apply tokenize_nil_iff; auto.
    - intros [He Hr]. apply tokenize_nil_iff in He; [|assumption].
      rewrite He. simpl. apply flat_map_nil_iff.
      rewrite Forall_forall in *.
      intros a Ha'. apply tokenize_nil_iff; auto. }
  split; intros (head & rest & expansion & Hs & Ht & Ha & Hx).
  - exists head, rest, expansion. repeat split; try assumption;
      now apply (Hblank head rest expansion Ht Ha).
  - exists head, rest, expansion. repeat split; try assumption.
    now apply (Hblank head rest expansion Ht Ha).
Qed.

End Aliases.

(** ** More on the tokenizer *)

Lemma scan_quoted_then (arg : string) : forall acc s2,
  Py.has_char quote arg = false ->
  reference_scan true acc (arg ++ String quote s2) =
  reference_scan false (acc ++ arg) s2.
Proof.
  induction arg as [|c arg IH]; intros acc s2 Hq; simpl.
  - now rewrite append_empty_r.
  - simpl in Hq. apply orb_false_elim in Hq as [Hc Hq]. rewrite Hc.
    assert (Hgo : reference_scan true (Py.snoc acc c)
                    (arg ++ String quote s2) =
                  reference_scan false (acc ++ String c arg) s2).
    { rewrite IH by assumption. now rewrite snoc_append. }
    now destruct (c =? space)%char.
Qed.

Lemma scan_word (t : string) : forall acc,
  Py.has_char quote t = false -> Py.has_char space t = false ->
  reference_scan false acc t = emit (acc ++ t) [].
Proof.
  induction t as [|c t IH]; intros acc Hq Hs; simpl.
  - now rewrite append_empty_r.
  - simpl in Hq, Hs.
    apply orb_false_elim in Hq as [Hc Hq].
    apply orb_false_elim in Hs as [Hc' Hs].
    rewrite Hc, Hc'. rewrite IH by assumption. now rewrite snoc_append.
Qed.

Lemma tokenize_word (t : string) :
  clean t -> Py.has_char space t = false -> tokenize t = [t].
Proof.
  intros [Hne Hq] Hs. rewrite tokenize_scan, scan_word by assumption.
  simpl. unfold emit. apply truthy_spec in Hne. now rewrite Hne.
Qed.

Lemma scan_quoted_word (a rest : string) :
  clean a ->
  reference_scan false "" (quoted a ++ String space rest) =
  a :: reference_scan false "" rest.
Proof.
  intros [Hne Hq]. unfold quoted. simpl.
  rewrite append_assoc. simpl.
  rewrite scan_quoted_then by assumption. simpl.
  unfold emit. apply truthy_spec in Hne. now rewrite Hne.
Qed.

(** X12. Quoting is a right inverse of [tokenize]: for tokens that are
    not empty and hold no double quote, the line made of the tokens,
    each between double quotes, joined by spaces, tokenizes back to
    them; and when no token holds a space the quotes are not needed. *)
Theorem quoting_round_trip (toks : list string) :
  Forall (fun t => t <> "" /\ Py.has_char quote t = false) toks ->
  tokenize (Py.join " " (map quoted toks)) = toks /\
  (Forall (fun t => Py.has_char space t = false) toks ->
   tokenize (Py.join " " toks) = toks).
Proof.
  intros Hclean. split.
  - rewrite tokenize_scan. unfold Py.join.
    induction toks as [|a [|b toks] IH].
    + reflexivity.
    + inversion Hclean as [|? ? Ha _]; subst.
      now apply tokenize_quoted.
    + inversion Hclean as [|? ? Ha Hrest]; subst.
      change (String.concat " " (map quoted (a :: b :: toks)))
        with (quoted a ++ String space
                (String.concat " " (map quoted (b :: toks)))).
      rewrite scan_quoted_word by assumption. f_equal. now apply IH.
  - intros Hspace. rewrite tokenize_join.
    + induction toks as [|a toks IH]; [reflexivity|].
      inversion Hclean; inversion Hspace; subst. simpl.
      rewrite tokenize_word by assumption. simpl. f_equal. now apply IH.
    + eapply Forall_impl; [|exact Hclean]. now intros a [_ Hq].
Qed.

Lemma tokenize_loop_app (s1 s2 : string) : forall st,
  tokenize_loop (s1 ++ s2) st = tokenize_loop s2 (tokenize_loop s1 st).
Proof.
  induction s1 as [|c s1 IH]; intros st; simpl; [reflexivity | apply IH].
Qed.

(** X13. A pair of double quotes with nothing between them leaves no
    trace, wherever it stands, so no token can be made empty; and a
    double quote at the very end of the line changes nothing, whether
    it closes a quoted region or opens one. *)
Theorem empty_quotes_vanish (s1 s2 : string) :
  tokenize (s1 ++ quoted "" ++ s2) = tokenize (s1 ++ s2) /\
  tokenize (s1 ++ String quote "") = tokenize s1.
Proof.
  unfold tokenize. rewrite !tokenize_loop_app. split.
  - f_equal. unfold quoted. simpl. f_equal.
    destruct (tokenize_loop s1 _) as [toks cur inq].
    unfold tokenize_step. simpl. now rewrite negb_involutive.
  - simpl. destruct (tokenize_loop s1 _) as [toks cur inq].
    reflexivity.
Qed.

Lemma length_snoc (acc : string) (c : ascii) :
  String.length (Py.snoc acc c) = S (String.length acc).
Proof.
  unfold Py.snoc. induction acc as [|d acc IH]; simpl; [reflexivity|].
  now rewrite IH.
Qed.

Lemma scan_lengths (line : string) : forall inside acc,
  list_sum (map String.length (reference_scan inside acc line)) <=
  String.length acc + String.length line.
Proof.
  induction line as [|c line IH]; intros inside acc; simpl.
  - unfold emit. destruct (Py.truthy acc); simpl; lia.
  - destruct (c =? quote)%char; [specialize (IH (negb inside) acc); lia|].
    pose proof (IH inside (Py.snoc acc c)) as Hsnoc.
    rewrite length_snoc in Hsnoc.
    destruct (c =? space)%char; [|lia].
    destruct inside; [lia|].
    specialize (IH false ""). unfold emit.
    destruct (Py.truthy acc); simpl in *; lia.
Qed.

Lemma scan_chars (line : string) : forall inside acc t c,
  In t (reference_scan inside acc line) ->
  Py.has_char c t = true ->
  Py.has_char c acc = true \/ Py.has_char c line = true.
Proof.
  induction line as [|d line IH]; intros inside acc t c Hin Hc; simpl in Hin.
  - unfold emit in Hin. destruct (Py.truthy acc); simpl in Hin;
      [|contradiction].
    destruct Hin as [<-|[]]. now left.
  - assert (Hsnoc : In t (reference_scan inside (Py.snoc acc d) line) ->
                    Py.has_char c acc = true \/
                    Py.has_char c (String d line) = true).
    { intros Hin'. destruct (IH _ _ _ _ Hin' Hc) as [Ha|Hl].
      - rewrite has_char_snoc in Ha. apply orb_true_iff in Ha as [Ha|Ha];
          [now left | right; simpl; now rewrite Ha].
      - right. simpl. rewrite Hl. apply orb_true_r. }
    destruct (d =? quote)%char.
    { destruct (IH _ _ _ _ Hin Hc) as [Ha|Hl]; [now left|].
      right. simpl. rewrite Hl. apply orb_true_r. }
    destruct (d =? space)%char; [|now apply Hsnoc].
    destruct inside; [now apply Hsnoc|].
    unfold emit in Hin. destruct (Py.truthy acc); simpl in Hin.
    + destruct Hin as [<-|Hin]; [now left|].
      destruct (IH _ _ _ _ Hin Hc) as [Ha|Hl]; [discriminate|].
      right. simpl. rewrite Hl. apply orb_true_r.
    + destruct (IH _ _ _ _ Hin Hc) as [Ha|Hl]; [discriminate|].
      right. simpl. rewrite Hl. apply orb_true_r.
Qed.

(** X14. The tokenizer invents nothing: every character of every
    token is a character of the line, and the tokens together are no
    longer than the line. *)
Theorem tokens_come_from_the_line (line : string) :
  (forall t c, In t (tokenize line) -> Py.has_char c t = true ->
               Py.has_char c line = true) /\
  list_sum (map String.length (tokenize line)) <= String.length line.
Proof.
  rewrite tokenize_scan. split.
  - intros t c Hin Hc.
    destruct (scan_chars _ _ _ _ _ Hin Hc) as [Ha|Hl];
      [discriminate | exact Hl].
  - apply (scan_lengths line false "").
Qed.

(** ** What the window shows *)

Section Display.
Context {W : Type} {H : Host W}.



Lemma enumerate_nth (l : list string) : forall (start i : nat) (c : string),
  nth_error l i = Some c ->
  nth_error (combine (seq start (length l)) l) i = Some (start + i, c).
Proof.
  induction l as [|a l IH]; intros start i c Hi; [now destruct i|].
  destruct i as [|i]; simpl in *.
  - injection Hi as ->. now rewrite Nat.add_0_r.
  - rewrite (IH (S start) i c Hi). f_equal. f_equal. lia.
Qed.

(** X16. The [history] command writes one line for each entry of the
    history, in order and numbered from 1: line [i] (counted from 0) is
    the number [i + 1], a colon, a space and the entry at position [i];
    for an empty history it writes a single notice instead. *)
Theorem history_lists_every_entry (args : list string) (st : State W) :
  let out := call_out (Commands.history args st) in
  let entries := command_history (env st) in
  (entries = [] ->
   out = [("No command history available." ++ nl, tag_info)]) /\
  (entries <> [] -> length out = length entries) /\
  (forall i c, nth_error entries i = Some c ->
     nth_error out i =
     Some (Py.str_of_nat (i + 1) ++ ": " ++ c ++ nl, tag_output)).
Proof.
  intros out entries. unfold out, Commands.history. fold entries.
  destruct entries as [|e entries'] eqn:He.
  - repeat split; [congruence | now intros [|i] c].
  - set (l := e :: entries'). cbn [call_out].
    repeat split; [discriminate | |].
    + intros _. unfold Commands.enumerate1.
      now rewrite length_map, length_combine, length_seq, Nat.min_id.
    + intros i c Hi. unfold Commands.enumerate1.
      rewrite nth_error_map, (enumerate_nth l 1 i c Hi). simpl.
      now rewrite Nat.add_1_r.
Qed.

End Display.

(** ** The file commands *)

Lemma cmp_loop_verdict (b1 : string) : forall (b2 : string) (pos : nat),
  let out := FileCommands.cmp_loop b1 b2 pos in
  (b1 = b2 /\ out = ("Files are identical" ++ nl, tag_success)) \/
  ((exists c extra, b1 = b2 ++ String c extra \/ b2 = b1 ++ String c extra) /\
   out = ("Files have different lengths" ++ nl, tag_error)) \/
  (exists pre x y r1 r2,
     b1 = pre ++ String x r1 /\ b2 = pre ++ String y r2 /\ x <> y /\
     out = ("Files differ at byte " ++
            Py.str_of_nat (String.length pre + pos) ++ nl, tag_error)).
Proof.
  induction b1 as [|x b1 IH]; intros [|y b2] pos; cbn [FileCommands.cmp_loop].
  - left. now split.
  - right. left. split; [|reflexivity]. exists y, b2. now right.
  - right. left. split; [|reflexivity]. exists x, b1. now left.
  - destruct (Ascii.eqb_spec x y) as [<-|Hxy].
    + destruct (IH b2 (S pos)) as [[-> Ho]|[[(c & extra & He) Ho]|Hd]].
      * left. now split.
      * right. left. split; [|exact Ho]. exists c, extra.
        destruct He as [->| ->]; [now left | now right].
      * right. right.
        destruct Hd as (pre & x' & y' & r1 & r2 & -> & -> & Hne & Ho).
        exists (String x pre), x', y', r1, r2.
        repeat split; try assumption. rewrite Ho. simpl.
        now rewrite Nat.add_succ_r.
    + right. right. exists "", x, y, b1, b2. now repeat split.
Qed.

(** X17. [cmp] tells exactly how two files compare: it says they are
    identical when their bytes are the same; that their lengths differ
    when one is the other followed by more bytes; and otherwise it
    names the position, counted from 1, of the first byte at which they
    differ. *)
Theorem cmp_reports_the_first_difference (b1 b2 : string) :
  let out := FileCommands.cmp_files b1 b2 in
  (b1 = b2 /\ out = ("Files are identical" ++ nl, tag_success)) \/
  ((exists c extra, b1 = b2 ++ String c extra \/ b2 = b1 ++ String c extra) /\
   out = ("Files have different lengths" ++ nl, tag_error)) \/
  (exists pre x y r1 r2,
     b1 = pre ++ String x r1 /\ b2 = pre ++ String y r2 /\ x <> y /\
     out = ("Files differ at byte " ++
            Py.str_of_nat (String.length pre + 1) ++ nl, tag_error)).
Proof. apply cmp_loop_verdict. Qed.

Lemma rounds_all_nil {A B : Type} (f : A -> list B) (l : list A) :
  List.concat (map f l) = [] <-> forall a, In a l -> f a = [].
Proof.
  induction l as [|a l IH]; simpl.
  - split; [contradiction | reflexivity].
  - split.
    + intros Hnil a' [<-|Hin]; apply app_eq_nil in Hnil as [Ha Hl];
        [exact Ha | now apply IH].
    + intros Hall. rewrite (Hall a) by now left. apply IH. auto.
Qed.

Lemma rounds_no_difference {B : Type} (rounds : list (list B)) :
  List.concat rounds = [] ->
  filter (fun round => negb (Nat.eqb (length round) 0)) rounds = [].
Proof.
  induction rounds as [|r rounds IH]; simpl; [reflexivity|].
  intros Hnil. apply app_eq_nil in Hnil as [-> Hl]. simpl. now apply IH.
Qed.

Lemma diff_at_nil (lines1 lines2 : list string) (i : nat) :
  FileCommands.diff_at lines1 lines2 i = [] <->
  nth_error (map Py.rstrip lines1) i = nth_error (map Py.rstrip lines2) i.
Proof.
  rewrite !nth_error_map. unfold FileCommands.diff_at.
  destruct (nth_error lines1 i) as [l1|], (nth_error lines2 i) as [l2|];
    simpl; try (split; [discriminate | discriminate]).
  - destruct (String.eqb_spec (Py.rstrip l1) (Py.rstrip l2)) as [->|Hne].
    + now split.
    + split; [discriminate | congruence].
  - now split.
Qed.

(** X18. [diff] says that the files are identical, and nothing else,
    exactly when they have the same lines up to the whitespace that
    ends each line: whitespace at the end of a line is never reported. *)
Theorem diff_identical_iff (lines1 lines2 : list string) :
  FileCommands.diff_lines lines1 lines2 =
  [("Files are identical" ++ nl, tag_info)] <->
  map Py.rstrip lines1 = map Py.rstrip lines2.
Proof.
  unfold FileCommands.diff_lines.
  set (n := Nat.max (length lines1) (length lines2)).
  set (rounds := map (FileCommands.diff_at lines1 lines2) (seq 0 n)).
  split.
  - intros Hout.
    assert (Hnil : List.concat rounds = []).
    { destruct (List.concat rounds) as [|e rest]; [reflexivity|].
      apply (f_equal (@length _)) in Hout.
      rewrite length_app in Hout. simpl in Hout. lia. }
    apply nth_error_ext. intros i. apply diff_at_nil.
    destruct (Nat.lt_ge_cases i n) as [Hlt|Hge].
    + apply (proj1 (rounds_all_nil _ _) Hnil). apply in_seq. lia.
    + apply diff_at_nil. rewrite !nth_error_map.
      replace (nth_error lines1 i) with (@None string)
        by (symmetry; apply nth_error_None; lia).
      replace (nth_error lines2 i) with (@None string)
        by (symmetry; apply nth_error_None; lia).
      reflexivity.
  - intros Heq.
    assert (Hnil : List.concat rounds = []).
    { apply rounds_all_nil. intros i _. apply diff_at_nil. now rewrite Heq. }
    rewrite Hnil, (rounds_no_difference _ Hnil). reflexivity.
Qed.

(** X19. [head] with a count of zero or less writes nothing, and with
    a count [k] the first [k] lines. [tail] with a count [k > 0] writes
    the last [k] lines (all of them when there are fewer), with a
    negative count all lines but the first [-k], and with the count 0
    the whole file. For [0 <= k] less than the number of lines, [head]
    with [k] followed by [tail] with the remaining count is the file. *)
Theorem head_and_tail_split_the_file (k : Z) (l : list string) :
  let n := Z.of_nat (length l) in
  let whole := map (fun line => (line, tag_output)) l in
  ((k <= 0)%Z -> FileCommands.head_lines k l = []) /\
  FileCommands.tail_lines 0 l = whole /\
  ((0 < k)%Z ->
   FileCommands.tail_lines k l =
   map (fun line => (line, tag_output)) (skipn (length l - Z.to_nat k) l) /\
   length (FileCommands.tail_lines k l) = Nat.min (Z.to_nat k) (length l)) /\
  ((k < 0)%Z ->
   FileCommands.tail_lines k l =
   map (fun line => (line, tag_output)) (skipn (Z.to_nat (- k)) l)) /\
  ((0 <= k < n)%Z ->
   (FileCommands.head_lines k l ++ FileCommands.tail_lines (n - k) l)%list =
   whole).
Proof.
  intros n whole.
  assert (Htail : forall j : Z, (0 < j)%Z ->
            FileCommands.tail_lines j l =
            map (fun line => (line, tag_output))
              (skipn (length l - Z.to_nat j) l)).
  { intros j Hj. unfold FileCommands.tail_lines, slice_from.
    destruct (Z.ltb_spec (- j) 0); [|lia]. do 2 f_equal. lia. }
  repeat split.
  - intros Hk. unfold FileCommands.head_lines.
    replace (Z.to_nat k) with 0%nat by lia. reflexivity.
  - unfold FileCommands.tail_lines, slice_from. simpl.
    replace (Z.to_nat (Z.min 0 (Z.of_nat (length l)))) with 0%nat by lia.
    reflexivity.
  - now apply Htail.
  - rewrite Htail by assumption. rewrite length_map, length_skipn. lia.
  - intros Hk. unfold FileCommands.tail_lines, slice_from.
    destruct (Z.ltb_spec (- k) 0); [lia|].
    destruct (Z.le_ge_cases (- k) (Z.of_nat (length l))).
    + do 2 f_equal. lia.
    + rewrite !skipn_all2 by lia. reflexivity.
  - intros Hk. rewrite Htail by (unfold n; lia).
    unfold FileCommands.head_lines, whole. rewrite <- map_app.
    replace (length l - Z.to_nat (n - k))%nat with (Z.to_nat k)
      by (unfold n; lia).
    now rewrite firstn_skipn.
Qed.

Lemma strip_char_absent (c : ascii) (s : string) :
  Py.has_char c s = false -> strip_char c s = s.
Proof.
  intros Hs. unfold strip_char.
  assert (Hl : lstrip_char c s = s).
  { destruct s as [|d s]; [reflexivity|]. simpl in *.
    apply orb_false_elim in Hs as [Hd _]. now rewrite Hd. }
  rewrite Hl. clear Hl.
  induction s as [|d s IH]; simpl in *; [reflexivity|].
  apply orb_false_elim in Hs as [Hd Hs]. rewrite Hd. simpl.
  now rewrite IH.
Qed.

(** X20. The double quotes [cd] strips from the two ends of its path
    are never there: for the arguments [execute] passes on, whatever
    the line and the aliases, the path is the arguments joined by
    single spaces and contains no double quote. *)
Theorem cd_path_has_no_quote_to_strip
    (aliases : dict string) (line cmd : string) (args : list string) :
  resolved_command aliases line = Some (cmd, args) ->
  FileCommands.cd_path args = Py.join " " args /\
  Py.has_char quote (FileCommands.cd_path args) = false.
Proof.
  intros Hr.
  assert (Hargs : Forall (fun a => Py.has_char quote a = false) args).
  { unfold resolved_command, parse in Hr.
    destruct (negb (Py.truthy (Py.strip line))); [discriminate|].
    destruct (tokenize line) as [|head rest] eqn:Ht; [discriminate|].
    unfold resolve in Hr.
    destruct (dict_get (Py.lower head) aliases) as [expansion|].
    - destruct (tokenize (expansion ++ " " ++ Py.join " " rest))
        as [|h a] eqn:Ht'; [discriminate|].
      injection Hr as _ <-. now apply (tokens_unquoted _ _ _ Ht').
    - injection Hr as _ <-. now apply (tokens_unquoted _ _ _ Ht). }
  pose proof (join_quote_free _ Hargs) as Hq.
  unfold FileCommands.cd_path. rewrite strip_char_absent by assumption.
  now split.
Qed.

(** ** The window and the history *)

Section WindowHistory.
Context {W : Type} {H : Host W}.

Lemma last_in (l : list string) (d : string) :
  l <> [] -> In (last l d) l.
Proof.
  induction l as [|a [|b l] IH]; intros Hne; [congruence | now left|].
  right. apply IH. discriminate.
Qed.

Lemma recorded_storable (history : list string) (entry : string) :
  Forall storable history -> Forall storable (recorded history entry).
Proof.
  intros Hh. unfold recorded.
  destruct (Py.truthy (Py.strip entry)) eqn:Ht; simpl; [|constructor].
  destruct (Py.lower (Py.strip entry) =? "exit") eqn:He; [constructor|].
  destruct ((Py.lower (Py.strip entry) =? "clear") ||
            (Py.lower (Py.strip entry) =? "cls")) eqn:Hc; [constructor|].
  assert (Htyped : Forall storable [Py.strip entry])
    by (repeat constructor; assumption).
  destruct (Py.lower (Py.strip entry) =? "last"); simpl; [|exact Htyped].
  destruct (Py.truthy (last history "")) eqn:Hp; simpl; [|exact Htyped].
  destruct (last history "" =? "last"); simpl; [exact Htyped|].
  constructor; [|constructor]. rewrite Forall_forall in Hh. apply Hh.
  apply last_in. intros ->. discriminate.
Qed.

Lemma react_storable (e : Event) (g g' : CCLIGUI W) (entry entry' : string) :
  react e g entry = Some (g', entry') ->
  Forall storable (command_history (env (session g))) ->
  Forall storable (command_history (env (session g'))).
Proof.
  intros Hr Hg. destruct e as [typed| |]; simpl in Hr.
  - pose proof (handle_command_history typed g) as Hh.
    destruct (handle_command typed g) as [g1 []]; try discriminate;
      injection Hr as <- _; simpl in Hh; rewrite Hh;
      (apply Forall_app; split; [exact Hg | now apply recorded_storable]).
  - injection Hr as <- _. unfold history_up.
    now split_matches.
  - injection Hr as <- _. unfold history_down.
    now split_matches.
Qed.

(** X21. The history of the window never holds an empty line, nor
    [exit], [clear] or [cls] in any letter case, whatever is typed and
    whichever arrow keys are pressed: these words are handled by the
    window and not recorded, and [last] replays recorded lines only. *)
Theorem history_never_holds_window_commands
    (events : list Event) (cwd : string) (w : W) (entry : string) :
  Forall (fun e => Py.truthy e = true /\
                   (Py.lower e =? "exit") = false /\
                   (Py.lower e =? "clear") || (Py.lower e =? "cls") = false)
    (command_history
       (env (session (fst (play events (gui_init cwd w) entry))))).
Proof.
  change (Forall storable
            (command_history
               (env (session (fst (play events (gui_init cwd w) entry)))))).
  assert (Hgen : forall (g : CCLIGUI W) (e0 : string),
             Forall storable (command_history (env (session g))) ->
             Forall storable
               (command_history (env (session (fst (play events g e0)))))).
  { induction events as [|e events IH]; intros g e0 Hg; simpl; [exact Hg|].
    destruct (react e g e0) as [[g' e']|] eqn:Hr; [|exact Hg].
    apply IH. now apply (react_storable _ _ _ _ _ Hr). }
  apply Hgen. constructor.
Qed.

(** X22. The screen is cleared by [clear] and [cls] typed alone in any
    letter case, and by every other line (but [exit] and [last]) that
    resolves to the [clear] command, through an alias or with arguments
    after it: the window then shows the welcome text alone. *)
Theorem clear_in_any_form_clears_the_window (entry : string) (g : CCLIGUI W) :
  Py.truthy (Py.strip entry) = true ->
  (Py.lower (Py.strip entry) =? "exit") = false ->
  (Py.lower (Py.strip entry) =? "clear") ||
  (Py.lower (Py.strip entry) =? "cls") = true \/
  ((Py.lower (Py.strip entry) =? "last") = false /\
   resolved_method (aliases (env (session g))) (Py.strip entry) =
   Some Clear) ->
  output_text (fst (handle_command entry g)) = [(welcome, tag_info)].
Proof.
  intros Ht He Hclear. unfold handle_command. rewrite Ht, He. simpl.
  destruct ((Py.lower (Py.strip entry) =? "clear") ||
            (Py.lower (Py.strip entry) =? "cls")); [reflexivity|].
  destruct Hclear as [Hf|[Hl Hm]]; [discriminate|]. rewrite Hl.
  unfold add_and_execute.
  set (st := Commands.with_env _ (session g)).
  assert (Hm' : resolved_method (aliases (env st)) (Py.strip entry) =
                Some Clear) by exact Hm.
  unfold resolved_method in Hm'.
  destruct (resolved_command (aliases (env st)) (Py.strip entry))
    as [[cmd args]|] eqn:Hr; [|discriminate].
  rewrite (execute_resolved _ _ _ _ Hr). unfold dispatch. rewrite Hm'.
  reflexivity.
Qed.

End WindowHistory.

(** * The properties on concrete lines *)

(** C1. [execute] does not always return: once [x] is an alias whose
    expansion is one space (the line [alias x] followed by a quoted
    space defines it), the line [x] takes the alias branch, the rebuilt
    line has no token, and the [IndexError] of [tokens[0]] leaves
    [execute]. *)
Theorem execute_raises_on_blank_alias :
  let st := after (execute ("alias x " ++ quoted " ") fresh) in
  exit (execute ("alias x " ++ quoted " ") fresh) = Returned None /\
  aliases (env st) = [("x", " ")] /\
  tokenize (" " ++ " " ++ Py.join " " []) = [] /\
  exit (execute "x" st) = IndexError.
Proof. repeat split. Qed.

(** C9: a quoted space is made of whitespace and quotes only, yet it is
    a token, and [execute] reports it as an unknown command; a tab
    alone is a token as well. *)
Lemma quoted_space_is_a_token :
  all_chars (fun c => Py.isspace c || (c =? quote)%char) (quoted " ") = true /\
  tokenize (quoted " ") = [" "] /\
  execute (quoted " ") fresh =
  mkOutcome fresh [(unknown_command " ", tag_error)] (Returned None) /\
  all_chars Py.isspace (String "009" "") = true /\
  tokenize (String "009" "") = [String "009" ""].
Proof. repeat split. Qed.

(** The line of three spaces is ignored. *)
Lemma blank_line_is_ignored_witness :
  (only_delimiters false "   " = true \/
   all_chars Py.isspace "   " = true) /\
  execute "   " fresh = mkOutcome fresh [] (Returned None) /\
  tokenize "   " = [].
Proof.
  assert (Hd : only_delimiters false "   " = true) by reflexivity.
  destruct (blank_line_is_ignored "   " fresh (or_introl Hd)) as [He Ht].
  split; [left; exact Hd|]. split; [exact He | exact (Ht Hd)].
Defined.

(** C4: with [LL] a key of the alias table, the line [LL] does not take
    the alias branch; with [ll] a key and [LL] not, it does. *)
Lemma alias_lookup_ignores_case_as_typed :
  tokenize "LL" = ["LL"] /\
  (dict_mem "LL" [("LL", "ls")] = true /\
   alias_branch_taken [("LL", "ls")] "LL" = false) /\
  (dict_mem "LL" [("ll", "ls")] = false /\
   alias_branch_taken [("ll", "ls")] "LL" = true).
Proof. repeat split. Qed.

(** C3: after [alias LL echo hi] the head token [LL] is a key of the
    alias table, but no substitution is made: the tokens stay [LL] and
    the line is an unknown command. *)
Lemma uppercase_alias_is_not_expanded :
  let st := after (execute "alias LL echo hi" fresh) in
  tokenize "LL" = ["LL"] /\
  dict_get "LL" (aliases (env st)) = Some "echo hi" /\
  tokenize ("echo hi" ++ " " ++ Py.join " " []) = ["echo"; "hi"] /\
  parse (aliases (env st)) "LL" = Some (Unaliased "ll" []) /\
  execute "LL" st =
  mkOutcome st [(unknown_command "ll", tag_error)] (Returned None).
Proof. repeat split. Qed.

(** With [ll] standing for [ls -la], the line [ll extra] resolves to
    [ls], [-la], [extra] and does what [ls -la extra] does. *)
Lemma alias_substitution_is_single_pass_witness :
  let st := after (execute "alias ll ls -la" fresh) in
  (Py.truthy (Py.strip "ll extra") = true /\
   tokenize "ll extra" = ["ll"; "extra"] /\
   dict_get (Py.lower "ll") (aliases (env st)) = Some "ls -la") /\
  parse (aliases (env st)) "ll extra" =
  Some (Aliased ["ls"; "-la"; "extra"]) /\
  execute "ll extra" st = dispatch "ls" ["-la"; "extra"] st /\
  execute "ll extra" st = execute "ls -la extra" st.
Proof.
  intros st.
  destruct (alias_substitution_is_single_pass st "ll extra" "ll" "ls -la"
              ["extra"] eq_refl eq_refl eq_refl) as (Hp & Hd & Hll).
  split; [repeat split|]. split; [exact Hp|]. split.
  - exact (proj1 (Hd "ls" ["-la"; "extra"] eq_refl)).
  - exact (proj2 (Hll eq_refl eq_refl eq_refl)).
Defined.

(** C5: for the line [FOO] the diagnostic names [foo]; the token as
    typed does not occur in it. *)
Lemma unknown_command_names_the_lowercased_head :
  tokenize "FOO" = ["FOO"] /\
  dict_mem "FOO" (aliases (env fresh)) = false /\
  dict_mem (Py.lower "FOO") command_map = false /\
  execute "FOO" fresh =
  mkOutcome fresh
    [("Unknown command: foo. Type 'help' for available commands." ++ nl,
      tag_error)]
    (Returned None) /\
  Py.contains "FOO"
    ("Unknown command: foo. Type 'help' for available commands." ++ nl) =
  false.
Proof. repeat split. Qed.

(** The line [Frobnicate now] is reported as the unknown command
    [frobnicate]. *)
Lemma unknown_command_is_reported_witness :
  (Py.truthy (Py.strip "Frobnicate now") = true /\
   tokenize "Frobnicate now" = ["Frobnicate"; "now"] /\
   dict_get (Py.lower "Frobnicate") (aliases (env fresh)) = None /\
   dict_get (Py.lower "Frobnicate") command_map = None) /\
  execute "Frobnicate now" fresh =
  mkOutcome fresh
    [("Unknown command: frobnicate. Type 'help' for available commands."
      ++ nl, tag_error)]
    (Returned None).
Proof.
  split; [repeat split|].
  exact (proj1 (unknown_command_is_reported fresh "Frobnicate now"
                  "Frobnicate" ["now"] eq_refl eq_refl eq_refl eq_refl)).
Defined.

(** Where no path exists, [tree nowhere] prints the path, raises, and
    [execute] adds the error line and returns. *)
Lemma capability_fault_is_contained_witness :
  (resolved_command (aliases (env stranded)) "tree nowhere" =
   Some ("tree", ["nowhere"]) /\
   dict_get "tree" command_map = Some Tree /\
   call_end (Commands.call Tree ["nowhere"] stranded) =
   Raise "[Errno 2] No such file or directory: 'nowhere'") /\
  execute "tree nowhere" stranded =
  mkOutcome stranded
    [("/nowhere" ++ nl, tag_output);
     ("Error: [Errno 2] No such file or directory: 'nowhere'" ++ nl,
      tag_error)]
    (Returned None).
Proof.
  split; [repeat split|].
  exact (capability_fault_is_contained stranded "tree nowhere" "tree"
           ["nowhere"] Tree "[Errno 2] No such file or directory: 'nowhere'"
           eq_refl eq_refl eq_refl).
Defined.

(** C7: the submission [last] is stored as the line it replays, and an
    entry is stored without the blanks typed around it. *)
Lemma last_is_stored_as_the_replayed_line :
  command_history
    (env (session (submit ["echo hi"; "last"] (gui_init "/" tt)))) =
  ["echo hi"; "echo hi"] /\
  command_history
    (env (session (submit ["  echo hi "] (gui_init "/" tt)))) =
  ["echo hi"].
Proof. repeat split. Qed.

(** C10: with [x] an alias of [echo], a quoted argument made of a
    space and [a] is not split, it loses its space; a quoted argument
    made of one space disappears. *)
Lemma quoted_argument_is_not_always_split :
  let st := after (execute "alias x echo" fresh) in
  tokenize ("x " ++ quoted " a") = ["x"; " a"] /\
  Py.has_char space " a" = true /\
  parse (aliases (env st)) ("x " ++ quoted " a") =
  Some (Aliased ["echo"; "a"]) /\
  tokenize ("echo " ++ quoted " a") = ["echo"; " a"] /\
  parse (aliases (env st)) ("x " ++ quoted " ") = Some (Aliased ["echo"]).
Proof. repeat split. Qed.

(** With [x] an alias of [echo], the quoted argument [a b] of [x] is
    resolved to [a] and [b]; typed after [echo] it stays one token. *)
Lemma alias_resolution_loses_quoting_witness :
  let st := after (execute "alias x echo" fresh) in
  let line := "x " ++ quoted "a b" in
  (Py.truthy (Py.strip line) = true /\
   tokenize line = ["x"; "a b"] /\
   dict_get (Py.lower "x") (aliases (env st)) = Some "echo" /\
   Py.has_char quote "echo" = false /\
   In "a b" ["a b"] /\
   Py.has_char space "a b" = true) /\
  parse (aliases (env st)) line = Some (Aliased ["echo"; "a"; "b"]) /\
  2 <= length (tokenize "a b") /\
  tokenize ("echo" ++ " " ++ quoted "a b") = ["echo"; "a b"].
Proof.
  intros st line.
  destruct (alias_resolution_loses_quoting (aliases (env st)) line "x"
              "echo" "a b" ["a b"] eq_refl eq_refl eq_refl eq_refl
              (or_introl eq_refl) eq_refl)
    as (Hp & _ & _ & Hsplit & Hdirect).
  split; [repeat split; now left|]. split; [exact Hp|]. split.
  - exact (Hsplit "a" "b" eq_refl eq_refl eq_refl).
  - exact Hdirect.
Defined.

(** The window after the lines [a], [b] and [c] were submitted. *)
Lemma up_walks_back_through_history_witness :
  let g := submit ["a"; "b"; "c"] (gui_init "/" tt) in
  (command_history (env (session g)) = ["a"; "b"; "c"] /\
   history_index g = 3%Z) /\
  play [Up; Up; Up] g "" = (mkGUI (session g) (output_text g) 0%Z, "a") /\
  play [Up; Up; Up; Up] g "" = play [Up; Up; Up] g "".
Proof.
  intros g.
  assert (H1 : (1 <= Z.of_nat 3 <= history_index g)%Z)
    by (vm_compute; split; discriminate).
  assert (H2 : (history_index g <=
                Z.of_nat (length (command_history (env (session g)))))%Z)
    by (vm_compute; discriminate).
  destruct (up_walks_back_through_history 3 1 g "" "a" H1 H2 eq_refl)
    as [Hwalk Hclamp].
  split; [now split|]. split; [exact Hwalk | exact (Hclamp eq_refl)].
Defined.

(** In that window Up then Down comes back past the end of the history,
    with an empty field. *)
Lemma up_and_down_undo_each_other_witness :
  let g := submit ["a"; "b"; "c"] (gui_init "/" tt) in
  cursor_in_range g /\
  window (history_down (window (history_up g "typed"))
            (input_entry (history_up g "typed"))) = g /\
  input_entry (history_down (window (history_up g "typed"))
                 (input_entry (history_up g "typed"))) = "".
Proof.
  intros g.
  assert (Hg : cursor_in_range g) by (vm_compute; split; discriminate).
  destruct (up_and_down_undo_each_other g "typed" Hg) as [Hud _].
  split; [exact Hg|].
  assert (Hpos : (0 < history_index g)%Z) by reflexivity.
  exact (Hud Hpos).
Defined.

(** The alias [ll] is defined, shown and used. *)
Lemma alias_define_then_use_witness :
  let st' := call_state (Commands.alias ["ll"; "ls"; "-la"] fresh) in
  (["ls"; "-la"] <> [] /\
   Forall (fun t => t <> "") ["ls"; "-la"] /\
   Py.truthy (Py.strip "LL extra") = true /\
   tokenize "LL extra" = ["LL"; "extra"] /\
   Py.lower "LL" = "ll") /\
  call_out (Commands.alias ["ll"] st') =
  [("ll='ls -la'" ++ nl, tag_output)] /\
  parse (aliases (env st')) "LL extra" =
  Some (Aliased ["ls"; "-la"; "extra"]).
Proof.
  intros st'.
  assert (Hne : ["ls"; "-la"] <> []) by discriminate.
  assert (Hall : Forall (fun t => t <> "") ["ls"; "-la"])
    by (repeat constructor; discriminate).
  split; [repeat split; assumption|].
  exact (alias_define_then_use fresh "ll" "LL extra" "LL" ["ls"; "-la"]
           ["extra"] Hne Hall eq_refl eq_refl eq_refl).
Defined.

(** The alias [LL] is stored and changes the resolution of no line. *)
Lemma uppercase_alias_name_is_dead_witness :
  let st' := call_state (Commands.alias ["LL"; "ls"] fresh) in
  (["ls"] <> [] /\ Py.lower "LL" <> "LL") /\
  dict_get "LL" (aliases (env st')) = Some "ls" /\
  parse (aliases (env st')) "LL" = parse (aliases (env fresh)) "LL" /\
  parse (aliases (env st')) "ll" = parse (aliases (env fresh)) "ll".
Proof.
  intros st'.
  assert (Hne : ["ls"] <> []) by discriminate.
  assert (Hup : Py.lower "LL" <> "LL") by discriminate.
  split; [now split|].
  destruct (uppercase_alias_name_is_dead fresh "LL" "LL" ["ls"] Hne Hup)
    as (Hget & Hp & _).
  destruct (uppercase_alias_name_is_dead fresh "LL" "ll" ["ls"] Hne Hup)
    as (_ & Hp' & _).
  split; [exact Hget|]. split; [exact Hp | exact Hp'].
Defined.



(** With [x] standing for one space, the line [x] raises, and so does
    [x] followed by a quoted space; [x y] does not. *)
Lemma execute_raises_exactly_on_blank_alias_witness :
  let st := after (execute ("alias x " ++ quoted " ") fresh) in
  reachable st /\
  exit (execute ("x " ++ quoted " ") st) = IndexError /\
  exit (execute "x y" st) = Returned None.
Proof.
  intros st.
  assert (Hreach : reachable st)
    by (apply reach_execute, reach_init).
  split; [exact Hreach|]. split; [|reflexivity].
  apply (execute_raises_exactly_on_blank_alias st ("x " ++ quoted " ") Hreach).
  exists "x", [" "], " ". repeat split. repeat constructor.
Defined.

(** Two tokens, one of them with a space. *)
Lemma quoting_round_trip_witness :
  Forall (fun t => t <> "" /\ Py.has_char quote t = false) ["a b"; "c"] /\
  tokenize (Py.join " " (map quoted ["a b"; "c"])) = ["a b"; "c"].
Proof.
  assert (Hc : Forall (fun t => t <> "" /\ Py.has_char quote t = false)
                 ["a b"; "c"])
    by (repeat constructor; discriminate).
  split; [exact Hc | exact (proj1 (quoting_round_trip ["a b"; "c"] Hc))].
Defined.

(** The path of [cd My Documents]. *)
Lemma cd_path_has_no_quote_to_strip_witness :
  resolved_command [] "cd My   Documents" = Some ("cd", ["My"; "Documents"]) /\
  FileCommands.cd_path ["My"; "Documents"] = "My Documents".
Proof.
  split; [reflexivity|].
  exact (proj1 (cd_path_has_no_quote_to_strip [] "cd My   Documents" "cd"
                  ["My"; "Documents"] eq_refl)).
Defined.

(** With [c] standing for [cls], the line [c] clears the window. *)
Lemma clear_in_any_form_clears_the_window_witness :
  let g := submit ["alias c cls"] (gui_init "/" tt) in
  (Py.truthy (Py.strip " c ") = true /\
   (Py.lower (Py.strip " c ") =? "exit") = false /\
   (Py.lower (Py.strip " c ") =? "last") = false /\
   resolved_method (aliases (env (session g))) (Py.strip " c ") =
   Some Clear) /\
  output_text (fst (handle_command " c " g)) = [(welcome, tag_info)].
Proof.
  intros g. split; [repeat split|].
  exact (clear_in_any_form_clears_the_window " c " g eq_refl eq_refl
           (or_intror (conj eq_refl eq_refl))).
Defined.
